(** * Opening-hours engine of the Portland places map (src/shared.js)

    A shallow embedding of the hours-parsing and open-status functions of
    [shared.js]: [parseTime], [inferHour], [parseTimeRange],
    [getTodayHours], [getOpenStatus], [checkTimeRange],
    [findNextOpenTime] and [formatMinutesAsTime], followed by the
    properties the specification states about them.

    JavaScript strings are sequences of UTF-16 code units and are modelled
    as [list N]; numbers that the engine handles are small integers and are
    modelled as [Z] ([/] followed by [Math.floor] is [Z.div], [%] is
    [Z.rem]).

    The second half embeds [slugify], [encodeFilterHash] and
    [formatWebsiteDisplay] of [shared.js] and [findCategoryBySlug],
    [decodeFilterHash] and [filterPlaces] of [app.js]. *)

From Stdlib Require Import String Ascii.
From Stdlib Require Import List Sorted ZArith NArith Bool Lia.
From Equations Require Import Equations.
Import ListNotations.

Set Implicit Arguments.

(** ** JavaScript string primitives used by the engine *)

Module JS.

Definition jsstring := list N.

(** An ASCII literal as a sequence of code units. *)
Definition js (s : string) : jsstring :=
  map N_of_ascii (list_ascii_of_string s).

Definition code_eqb (a b : N) : bool := N.eqb a b.

Fixpoint str_eqb (a b : jsstring) : bool :=
  match a, b with
  | [], [] => true
  | x :: a', y :: b' => code_eqb x y && str_eqb a' b'
  | _, _ => false
  end.

(** [!s] for a string: only the empty string is falsy. *)
Definition isEmpty (s : jsstring) : bool :=
  match s with [] => true | _ => false end.

(** The class [\s] of regular expressions, which is also the set of code
    units removed by [String.prototype.trim]: WhiteSpace and
    LineTerminator. *)
Definition isSpace (c : N) : bool :=
  ((9 <=? c) && (c <=? 13) || (c =? 32) || (c =? 160) || (c =? 5760)
   || (8192 <=? c) && (c <=? 8202) || (c =? 8232) || (c =? 8233)
   || (c =? 8239) || (c =? 8287) || (c =? 12288) || (c =? 65279))%N.

(** The class [\d]. *)
Definition isDigit (c : N) : bool := ((48 <=? c) && (c <=? 57))%N.

Fixpoint dropWhile (p : N -> bool) (s : jsstring) : jsstring :=
  match s with
  | [] => []
  | c :: s' => if p c then dropWhile p s' else s
  end.

Definition trimStart (s : jsstring) : jsstring := dropWhile isSpace s.
Definition trimEnd (s : jsstring) : jsstring :=
  List.rev (dropWhile isSpace (List.rev s)).
Definition trim (s : jsstring) : jsstring := trimEnd (trimStart s).

Fixpoint startsWith (s p : jsstring) {struct p} : bool :=
  match p, s with
  | [], _ => true
  | x :: p', y :: s' => code_eqb y x && startsWith s' p'
  | _ :: _, [] => false
  end.

(** [s.includes(p)]: [p] occurs at some position of [s]. *)
Fixpoint includes (s p : jsstring) : bool :=
  startsWith s p ||
  match s with
  | [] => false
  | _ :: s' => includes s' p
  end.

(** [s.replace(p, '')] with a string pattern: the first occurrence of [p]
    is removed, and [s] is returned as it is when there is none. *)
Fixpoint removeFirst (p s : jsstring) : jsstring :=
  if startsWith s p then skipn (length p) s
  else match s with
       | [] => []
       | c :: s' => c :: removeFirst p s'
       end.

(** [s.split(sep)] for a separator of one code unit. *)
Fixpoint splitOn (sep : N) (s : jsstring) : list jsstring :=
  match s with
  | [] => [[]]
  | c :: s' =>
      match splitOn sep s' with
      | [] => [[c]]
      | w :: ws => if code_eqb c sep then [] :: w :: ws else (c :: w) :: ws
      end
  end.

(** ASCII letters to upper case; [toUpperCase] is only applied to the
    meridiem group of the time pattern, which holds ASCII letters. *)
Definition upperCode (c : N) : N :=
  if ((97 <=? c) && (c <=? 122))%N then (c - 32)%N else c.
Definition toUpperCase (s : jsstring) : jsstring := map upperCode s.

(** [parseInt(s, 10)] on a run of decimal digits. *)
Definition digitValue (c : N) : Z := Z.of_N c - 48.
Definition parseInt10 (s : jsstring) : Z :=
  fold_left (fun acc c => acc * 10 + digitValue c)%Z s 0%Z.

(** [n.toString()] for an integer. *)
Fixpoint uintCodes (u : Decimal.uint) : jsstring :=
  match u with
  | Decimal.Nil => []
  | Decimal.D0 u' => 48%N :: uintCodes u'
  | Decimal.D1 u' => 49%N :: uintCodes u'
  | Decimal.D2 u' => 50%N :: uintCodes u'
  | Decimal.D3 u' => 51%N :: uintCodes u'
  | Decimal.D4 u' => 52%N :: uintCodes u'
  | Decimal.D5 u' => 53%N :: uintCodes u'
  | Decimal.D6 u' => 54%N :: uintCodes u'
  | Decimal.D7 u' => 55%N :: uintCodes u'
  | Decimal.D8 u' => 56%N :: uintCodes u'
  | Decimal.D9 u' => 57%N :: uintCodes u'
  end.

Definition numberToString (z : Z) : jsstring :=
  match Z.to_int z with
  | Decimal.Pos u => uintCodes u
  | Decimal.Neg u => 45%N :: uintCodes u
  end.

(** [s.padStart(n, '0')]. *)
Definition padStart (n : nat) (s : jsstring) : jsstring :=
  repeat 48%N (n - length s) ++ s.

(** *** The two regular expressions of the engine *)

(** The meridiem group [(AM|PM)] under the [i] flag. *)
Definition isMeridiem (g : jsstring) : bool :=
  match g with
  | [a; m] =>
      ((a =? 65) || (a =? 97) || (a =? 80) || (a =? 112))%N
      && ((m =? 77) || (m =? 109))%N
  | _ => false
  end.

(** What follows the hour group: [:(\d{2})\s*(AM|PM)?$]. *)
Definition timeTail (h r : jsstring)
  : option (jsstring * jsstring * option jsstring) :=
  match r with
  | c :: m1 :: m2 :: rest =>
      if (c =? 58)%N && isDigit m1 && isDigit m2 then
        match dropWhile isSpace rest with
        | [] => Some (h, [m1; m2], None)
        | g => if isMeridiem g then Some (h, [m1; m2], Some g) else None
        end
      else None
  | _ => None
  end.

(** [s.match(/^(\d{1,2}):(\d{2})\s*(AM|PM)?$/i)]: the three groups of the
    match, the hour group being greedy (two digits are tried first). *)
Definition matchTime (s : jsstring)
  : option (jsstring * jsstring * option jsstring) :=
  match s with
  | d1 :: d2 :: r =>
      if isDigit d1 && isDigit d2 then
        match timeTail [d1; d2] r with
        | Some g => Some g
        | None => timeTail [d1] (d2 :: r)
        end
      else if isDigit d1 then timeTail [d1] (d2 :: r)
      else None
  | _ => None
  end.

(** The class of the separator: en dash (U+2013), em dash (U+2014) and
    hyphen. *)
Definition isDash (c : N) : bool :=
  ((c =? 8211) || (c =? 8212) || (c =? 45))%N.

(** A match of the separator pattern, a dash with optional [\s] on both
    sides, at the head of [s]; the result is what follows the match. *)
Definition matchSeparator (s : jsstring) : option jsstring :=
  match dropWhile isSpace s with
  | d :: rest => if isDash d then Some (dropWhile isSpace rest) else None
  | [] => None
  end.

Definition inspect {A} (a : A) : {b : A | a = b} := exist _ a eq_refl.

(** [s.split(separator)]: the pattern is tried at each position from
    the end of the previous match; [cur] holds, reversed, the code units
    read since then. *)
Equations? splitDashFrom (cur s : jsstring) : list jsstring
  by wf (length s) lt :=
  splitDashFrom cur [] := [List.rev cur];
  splitDashFrom cur (c :: s') with inspect (matchSeparator (c :: s')) := {
    | exist _ (Some rest) _ => List.rev cur :: splitDashFrom [] rest;
    | exist _ None _ => splitDashFrom (c :: cur) s' }.
Proof.
  assert (D : forall t, (length (dropWhile isSpace t) <= length t)%nat).
  { induction t as [|x t IH]; simpl; [lia|].
    destruct (isSpace x); simpl; lia. }
  revert e. unfold matchSeparator.
  pose proof (D (c :: s')) as Hs.
  destruct (dropWhile isSpace (c :: s')) as [|d r]; [discriminate|].
  destruct (isDash d); [|discriminate].
  intros e. injection e as <-.
  pose proof (D r). simpl in Hs. simpl. lia.
Qed.

Definition splitDash (s : jsstring) : list jsstring := splitDashFrom [] s.

End JS.

Import JS.

Local Open Scope Z_scope.

(** ** Data *)

(** A parsed shift, [{ start, end }] in minutes from midnight; [is24h] is
    only set on the range built for "Open 24 hours" and is absent (falsy)
    on every other range. *)
Record TimeRange := mkRange {
  start : Z;
  end_ : Z;
  is24h : bool
}.

(** The part of a [Date] that the engine reads: [getDay()] (0 is Sunday),
    [getHours()] and [getMinutes()], all in local time. *)
Record Date := mkDate {
  getDay : nat;
  getHours : Z;
  getMinutes : Z
}.

Definition validDate (d : Date) : Prop :=
  (getDay d < 7)%nat /\ 0 <= getHours d < 24 /\ 0 <= getMinutes d < 60.

(** [c = new Date(d); c.setDate(c.getDate() + i)]: the calendar date moves
    by [i] days, so the weekday moves by [i] around the week; the engine
    reads nothing but [getDay()] from such a date. *)
Definition addDays (d : Date) (i : nat) : Date :=
  mkDate ((getDay d + i) mod 7) (getHours d) (getMinutes d).

Inductive Status := StatusOpen | StatusClosingSoon | StatusClosed | StatusUnknown.

(** The status object; a field that an outcome does not set is [None].
    [opensAt] is set by the closed outcome even when its value is [null],
    hence the two levels. *)
Record OpenStatus := mkStatus {
  isOpen : bool;
  isClosingSoon : bool;
  minutesUntilClose : option Z;
  closesAt : option jsstring;
  status : Status;
  opensAt : option (option jsstring);
  todayHours : option jsstring
}.

(** What [getTodayHours] returns. *)
Record TodayData := mkToday {
  dayName : jsstring;
  timeStr : jsstring;
  ranges : option (list TimeRange)
}.

(** The weekly hours: [null], or an array whose entries are strings or
    [null]. *)
Definition WeeklyHours := option (list (option jsstring)).

(** ** Constants *)

Definition DAY_NAMES : list jsstring :=
  [js "Sunday"; js "Monday"; js "Tuesday"; js "Wednesday"; js "Thursday";
   js "Friday"; js "Saturday"].

Definition CLOSING_SOON_MINUTES : Z := 45.

(** [DAY_NAMES[i]]; an index outside the array gives [undefined], which
    the string concatenations of [getTodayHours] turn into this text. *)
Definition dayNameAt (i : nat) : jsstring := nth i DAY_NAMES (js "undefined").

(** ** The time parser *)

Definition inferHour (hours minutes : Z) (isEndTime : bool)
    (startMinutes : option Z) : Z :=
  match isEndTime, startMinutes with
  | true, Some startMinutes =>
      let startHour := startMinutes / 60 in
      let currentMinutes := hours * 60 + minutes in
      if (hours <? 12) && (startHour >=? 12) then hours + 12
      else if (currentMinutes <? startMinutes) && (hours <? 12) then hours + 12
      else hours
  | _, _ => if (hours >=? 1) && (hours <=? 6) then hours + 12 else hours
  end.

Definition periodIs (period : option jsstring) (p : string) : bool :=
  match period with
  | Some g => str_eqb g (js p)
  | None => false
  end.

Definition noPeriod (period : option jsstring) : bool :=
  match period with Some _ => false | None => true end.

Definition parseTime (timeStr : jsstring) (isEndTime : bool)
    (startMinutes : option Z) : option Z :=
  if isEmpty timeStr then None
  else
    match matchTime (trim timeStr) with
    | None => None
    | Some (g1, g2, g3) =>
        let hours := parseInt10 g1 in
        let minutes := parseInt10 g2 in
        let period := option_map toUpperCase g3 in
        let hours :=
          if periodIs period "PM" && negb (hours =? 12) then hours + 12
          else if periodIs period "AM" && (hours =? 12) then 0
          else if noPeriod period then
            inferHour hours minutes isEndTime startMinutes
          else hours in
        Some (hours * 60 + minutes)
    end.

(** ** The range parser *)

Definition range24h : TimeRange := mkRange 0 1440 true.

(** The body of the loop over the periods: [None] stands for [continue]. *)
Definition parsePeriod (period : jsstring) : option TimeRange :=
  match splitDash period with
  | [p0; p1] =>
      let startMinutes := parseTime p0 false None in
      let endMinutes := parseTime p1 true startMinutes in
      match startMinutes, endMinutes with
      | Some s, Some e => Some (mkRange s e false)
      | _, _ => None
      end
  | _ => None
  end.

Definition pushPeriod (results : list TimeRange) (period : jsstring)
  : list TimeRange :=
  match parsePeriod period with
  | Some r => results ++ [r]
  | None => results
  end.

Definition comma : N := 44%N.

Definition periodsOf (rangeStr : jsstring) : list jsstring :=
  map trim (splitOn comma rangeStr).

Definition parseTimeRange (rangeStr : option jsstring)
  : option (list TimeRange) :=
  match rangeStr with
  | None => None
  | Some rangeStr =>
      if isEmpty rangeStr || str_eqb rangeStr (js "Closed") then None
      else if includes rangeStr (js "Open 24 hours") then Some [range24h]
      else
        let results := fold_left pushPeriod (periodsOf rangeStr) [] in
        if (0 <? length results)%nat then Some results else None
  end.

(** ** The time formatter *)

Definition formatMinutesAsTime (minutes : Z) : jsstring :=
  let hours := Z.rem (minutes / 60) 24 in
  let mins := Z.rem minutes 60 in
  let period := if hours >=? 12 then js "PM" else js "AM" in
  let displayHours :=
    if hours =? 0 then 12 else if hours >? 12 then hours - 12 else hours in
  numberToString displayHours ++ js ":" ++ padStart 2 (numberToString mins)
    ++ js " " ++ period.

(** ** The schedule accessor *)

(** [h && h.startsWith(dayName + ':')] *)
Definition isEntryFor (dayName : jsstring) (h : option jsstring) : bool :=
  match h with
  | Some h => negb (isEmpty h) && startsWith h (dayName ++ js ":")
  | None => false
  end.

Definition getTodayHours (hours : WeeklyHours) (date : Date)
  : option TodayData :=
  match hours with
  | None => None
  | Some hours =>
      if (length hours =? 0)%nat then None
      else
        let dayName := dayNameAt (getDay date) in
        match find (isEntryFor dayName) hours with
        | Some (Some entry) =>
            let timeStr := removeFirst (dayName ++ js ": ") entry in
            Some (mkToday dayName timeStr (parseTimeRange (Some timeStr)))
        | _ => None
        end
  end.

(** ** The status evaluator *)

(** The first half of [checkTimeRange]: [isInRange] and
    [minutesUntilClose], computed before the early return. *)
Definition rangeState (range : TimeRange) (currentMinutes : Z) : bool * Z :=
  let wrapsToNextDay := end_ range <? start range in
  if wrapsToNextDay then
    ((currentMinutes >=? start range) || (currentMinutes <? end_ range),
     if currentMinutes >=? start range
     then (1440 - currentMinutes) + end_ range
     else end_ range - currentMinutes)
  else
    ((currentMinutes >=? start range) && (currentMinutes <? end_ range),
     end_ range - currentMinutes).

Definition checkTimeRange (range : TimeRange) (currentMinutes : Z)
    (todayHours : jsstring) : option OpenStatus :=
  let '(isInRange, minutesUntilClose) := rangeState range currentMinutes in
  if negb isInRange then None
  else
    let isClosingSoon :=
      (minutesUntilClose <=? CLOSING_SOON_MINUTES) && (minutesUntilClose >? 0) in
    Some (mkStatus true isClosingSoon (Some minutesUntilClose)
            (Some (formatMinutesAsTime (Z.rem (end_ range) 1440)))
            (if isClosingSoon then StatusClosingSoon else StatusOpen)
            None (Some todayHours)).

(** ** The next-opening search *)

Definition currentMinutesOf (date : Date) : Z :=
  getHours date * 60 + getMinutes date.

(** The loop over today's ranges: the first one that starts later. *)
Fixpoint laterToday (rs : list TimeRange) (currentMinutes : Z)
  : option jsstring :=
  match rs with
  | [] => None
  | range :: rs' =>
      if start range >? currentMinutes
      then Some (js "today at " ++ formatMinutesAsTime (start range))
      else laterToday rs' currentMinutes
  end.

(** One turn of the loop [for (let i = 1; i <= 7; i++)]. *)
Definition checkDay (hours : WeeklyHours) (date : Date) (i : nat)
  : option jsstring :=
  let checkDate := addDays date i in
  match getTodayHours hours checkDate with
  | Some dayData =>
      match ranges dayData with
      | Some (r0 :: _) =>
          let dayLabel :=
            if (i =? 1)%nat then js "tomorrow" else dayNameAt (getDay checkDate) in
          Some (dayLabel ++ js " at " ++ formatMinutesAsTime (start r0))
      | _ => None
      end
  | None => None
  end.

(** The loop from [i] for [n] more turns. *)
Fixpoint followingDays (hours : WeeklyHours) (date : Date) (i n : nat)
  : option jsstring :=
  match n with
  | O => None
  | S n' =>
      match checkDay hours date i with
      | Some label => Some label
      | None => followingDays hours date (S i) n'
      end
  end.

Definition findNextOpenTime (hours : WeeklyHours) (date : Date)
  : option jsstring :=
  match hours with
  | None => None
  | Some hs =>
      if (length hs =? 0)%nat then None
      else
        let currentMinutes := currentMinutesOf date in
        let today :=
          match getTodayHours hours date with
          | Some todayData =>
              match ranges todayData with
              | Some rs => laterToday rs currentMinutes
              | None => None
              end
          | None => None
          end in
        match today with
        | Some label => Some label
        | None => followingDays hours date 1 7
        end
  end.

(** ** [getOpenStatus] *)

Definition unknownStatus : OpenStatus :=
  mkStatus false false None None StatusUnknown None None.

(** The loop over today's ranges; [None] when no range returned. *)
Fixpoint scanRanges (rs : list TimeRange) (currentMinutes : Z)
    (todayStr : jsstring) : option OpenStatus :=
  match rs with
  | [] => None
  | range :: rs' =>
      if is24h range
      then Some (mkStatus true false None None StatusOpen None (Some todayStr))
      else
        match checkTimeRange range currentMinutes todayStr with
        | Some openResult => Some openResult
        | None => scanRanges rs' currentMinutes todayStr
        end
  end.

Definition getOpenStatus (hours : WeeklyHours) (date : Date) : OpenStatus :=
  match getTodayHours hours date with
  | None => unknownStatus
  | Some todayData =>
      match ranges todayData with
      | None => unknownStatus
      | Some rs =>
          let currentMinutes := currentMinutesOf date in
          match scanRanges rs currentMinutes (timeStr todayData) with
          | Some result => result
          | None =>
              mkStatus false false None None StatusClosed
                (Some (findNextOpenTime hours date))
                (Some (timeStr todayData))
          end
      end
  end.

(** ** Vocabulary of the properties and sample schedules *)

(** A token of a single day: the pattern accepts it, its minute is at most
    59, and its hour is at most 23 when it has no meridiem and between 1
    and 12 when it has one. *)
Definition singleDayToken (s : jsstring) : Prop :=
  exists g1 g2 g3,
    matchTime (trim s) = Some (g1, g2, g3) /\
    parseInt10 g2 <= 59 /\
    match g3 with
    | None => parseInt10 g1 <= 23
    | Some _ => 1 <= parseInt10 g1 <= 12
    end.

(** The periods that parse, in the order of the text. *)
Definition parsedPeriods (periods : list jsstring) : list TimeRange :=
  flat_map (fun p => match parsePeriod p with Some r => [r] | None => [] end)
    periods.

Definition enDash : jsstring := [8211%N].

(** A day with a lunch and a dinner shift and a note that is no shift. *)
Definition splitShiftText : jsstring :=
  js "11:00 AM " ++ enDash ++ js " 3:00 PM, by appointment, 5:00 " ++ enDash
    ++ js " 10:00 PM".

Definition mondayOnly : WeeklyHours :=
  Some [Some (js "Monday: 9:00 AM - 5:00 PM"); Some (js "Tuesday: Closed")].

(** The ranges of the weekday of [date]; none when the weekday has no
    entry or its text gives no ranges. *)
Definition rangesOn (hours : WeeklyHours) (date : Date) : list TimeRange :=
  match getTodayHours hours date with
  | Some dayData =>
      match ranges dayData with
      | Some rs => rs
      | None => []
      end
  | None => []
  end.

(** The label of the [i]-th day after [date]. *)
Definition dayLabel (date : Date) (i : nat) : jsstring :=
  if (i =? 1)%nat then js "tomorrow" else dayNameAt ((getDay date + i) mod 7).

(** The earliest of the starts of today that are later than now. *)
Definition earliestLaterStart (rs : list TimeRange) (currentMinutes m : Z)
  : Prop :=
  (exists r, In r rs /\ start r = m) /\ m > currentMinutes /\
  forall r, In r rs -> start r > currentMinutes -> m <= start r.

(** Today's ranges are listed in ascending order of their starts. *)
Definition ascendingStarts (rs : list TimeRange) : Prop :=
  StronglySorted (fun a b => start a <= start b) rs.

Definition lunchAndDinner : WeeklyHours :=
  Some [Some (js "Monday: 11:00 AM - 3:00 PM, 5:00 - 10:00 PM")].

Definition eveningBeforeLunch : WeeklyHours :=
  Some [Some (js "Monday: 5:00 PM - 10:00 PM, 11:00 AM - 3:00 PM")].

Definition closedAllWeek : WeeklyHours :=
  Some [Some (js "Monday: Closed"); Some (js "Tuesday: Closed")].

Inductive Meridiem := AM | PM.

Definition meridiemText (p : Meridiem) : jsstring :=
  match p with AM => js "AM" | PM => js "PM" end.

Definition digitCode (d : Z) : N := Z.to_N (48 + d).

(** The token "H:MM AM" or "H:MM PM": the hour without leading zero, the
    minute on two digits, a space and the meridiem. *)
Definition clockToken (h m : Z) (p : Meridiem) : jsstring :=
  (if h <? 10 then [digitCode h] else [digitCode (h / 10); digitCode (h mod 10)])
  ++ js ":" ++ [digitCode (m / 10); digitCode (m mod 10)]
  ++ js " " ++ meridiemText p.

(** The minute of the day that the token denotes. *)
Definition clockMinutes (h m : Z) (p : Meridiem) : Z :=
  match p with
  | AM => (if h =? 12 then 0 else h) * 60 + m
  | PM => (if h =? 12 then 12 else h + 12) * 60 + m
  end.

Definition hasMeridiem (s : jsstring) : bool :=
  match matchTime (trim s) with
  | Some (_, _, Some _) => true
  | _ => false
  end.

Definition roundTrips (h m : Z) (p : Meridiem) : bool :=
  hasMeridiem (clockToken h m p) &&
  match parseTime (clockToken h m p) false None with
  | Some v =>
      (v =? clockMinutes h m p) &&
      str_eqb (formatMinutesAsTime v) (clockToken h m p)
  | None => false
  end.

Definition clockHours : list Z := map Z.of_nat (seq 1 12).
Definition clockMins : list Z := map Z.of_nat (seq 0 60).

(** ** Slugs, filters and URL hashes (src/shared.js, src/app.js) *)

Module Filters.

(** [name.toLowerCase()] as [slugify] sees it. The ASCII capitals get
    their small letter; U+0130 becomes "i" followed by U+0307 and the
    Kelvin sign U+212A becomes "k". The lower case of any other code
    unit from 128 on holds no code unit below 128, and [slugify] replaces
    all of those alike, so they are left as they are. *)
Definition lowerCode (c : N) : jsstring :=
  if ((65 <=? c) && (c <=? 90))%N then [(c + 32)%N]
  else if (c =? 304)%N then [105%N; 775%N]
  else if (c =? 8490)%N then [107%N]
  else [c].

Definition toLowerCase (s : jsstring) : jsstring := flat_map lowerCode s.

(** The first [replace] of [slugify]: its class lists the apostrophe
    (twice), and every apostrophe is removed. *)
Definition isApostrophe (c : N) : bool := (c =? 39)%N.
Definition removeApostrophes (s : jsstring) : jsstring :=
  filter (fun c => negb (isApostrophe c)) s.

(** The class [[a-z0-9]]. *)
Definition isSlugChar (c : N) : bool :=
  ((97 <=? c) && (c <=? 122) || (48 <=? c) && (c <=? 57))%N.

Definition hyphen : N := 45%N.
Definition isHyphen (c : N) : bool := (c =? 45)%N.

(** [.replace(/[^a-z0-9]+/g, '-')]: every maximal run of code units
    outside [a-z0-9] becomes one hyphen; [inRun] tells that the run has
    begun. *)
Fixpoint replaceRuns (inRun : bool) (s : jsstring) : jsstring :=
  match s with
  | [] => []
  | c :: s' =>
      if isSlugChar c then c :: replaceRuns false s'
      else if inRun then replaceRuns true s'
      else hyphen :: replaceRuns true s'
  end.

(** The run of hyphens at the end of the text is removed: the
    alternative [-+$]. *)
Fixpoint dropTrailingHyphens (s : jsstring) : jsstring :=
  match s with
  | [] => []
  | c :: s' =>
      match dropTrailingHyphens s' with
      | [] => if isHyphen c then [] else [c]
      | t => c :: t
      end
  end.

(** [.replace(/^-+|-+$/g, '')]: the hyphens at the start, then those at
    the end of what is left. *)
Definition stripHyphens (s : jsstring) : jsstring :=
  dropTrailingHyphens (dropWhile isHyphen s).

Definition slugify (name : jsstring) : jsstring :=
  stripHyphens (replaceRuns false (removeApostrophes (toLowerCase name))).

(** The filter state; [openNow] may be absent, which is falsy. *)
Record FilterState := mkFilter {
  status : jsstring;
  category : jsstring;
  primary : jsstring;
  openNow : bool
}.

(** The properties of a place that the filters read; [primary] may be
    absent. *)
Record Place := mkPlace {
  placeName : jsstring;
  placeStatus : jsstring;
  placeCategory : jsstring;
  placePrimary : option jsstring
}.

Definition all : jsstring := js "all".
Definition foodAndDrink : jsstring := js "Food & Drink".

(** [parts.join('/')] *)
Fixpoint join (sep : N) (parts : list jsstring) : jsstring :=
  match parts with
  | [] => []
  | [p] => p
  | p :: ps => p ++ sep :: join sep ps
  end.

Definition slash : N := 47%N.
Definition hashSign : N := 35%N.

(** [encodeFilterHash] of shared.js; each [push] appends to [parts]. *)
Definition encodeFilterHash (filterState : FilterState) : jsstring :=
  let parts := [] in
  let parts := if openNow filterState then parts ++ [js "open-now"] else parts in
  let hasCategory := negb (str_eqb (category filterState) all) in
  let hasPrimary :=
    negb (str_eqb (primary filterState) all)
    && str_eqb (category filterState) foodAndDrink in
  let parts :=
    if negb (str_eqb (status filterState) all)
    then parts ++ [status filterState]
    else if hasCategory || hasPrimary then parts ++ [all] else parts in
  let parts :=
    if hasCategory then parts ++ [slugify (category filterState)]
    else if hasPrimary then parts ++ [slugify foodAndDrink] else parts in
  let parts := if hasPrimary then parts ++ [primary filterState] else parts in
  if (0 <? length parts)%nat then hashSign :: join slash parts else [].

(** [findCategoryBySlug] of app.js: [None] stands for [null]. *)
Definition findCategoryBySlug (slug : jsstring) (places : list Place)
  : option jsstring :=
  if isEmpty slug || str_eqb slug all then Some all
  else
    match find (fun f => str_eqb (slugify (placeCategory f)) slug) places with
    | Some feature => Some (placeCategory feature)
    | None => None
    end.

Definition validStatuses : list jsstring := [js "all"; js "haunts"; js "queue"].
Definition validPrimaries : list jsstring :=
  [js "coffee"; js "bar"; js "restaurant"].

(** [list.includes(x)] on strings. *)
Definition includesString (l : list jsstring) (x : jsstring) : bool :=
  existsb (fun y => str_eqb y x) l.

(** [hash.replace(/^#/, '')] *)
Definition dropHash (hash : jsstring) : jsstring :=
  match hash with
  | c :: rest => if (c =? hashSign)%N then rest else hash
  | [] => []
  end.

(** [parts[idx]] when it is truthy: there is such a part and it is not
    the empty string. *)
Definition partAt (parts : list jsstring) (idx : nat) : option jsstring :=
  match nth_error parts idx with
  | Some p => if isEmpty p then None else Some p
  | None => None
  end.

(** [decodeFilterHash] of app.js; its result has no [openNow]. *)
Definition decodeFilterHash (hash : jsstring) (places : list Place)
  : FilterState :=
  let result := mkFilter all all all false in
  if isEmpty hash || str_eqb hash (js "#") then result
  else
    let parts :=
      filter (fun p => negb (isEmpty p)) (splitOn slash (dropHash hash)) in
    if (length parts =? 0)%nat then result
    else
      let '(result, idx) :=
        match parts with
        | p0 :: _ =>
            if includesString validStatuses p0
            then (mkFilter (if str_eqb p0 all then all else p0)
                    (category result) (primary result) (openNow result), 1%nat)
            else (result, 0%nat)
        | [] => (result, 0%nat)
        end in
      let '(result, idx) :=
        match partAt parts idx with
        | Some p =>
            match findCategoryBySlug p places with
            | Some c =>
                if isEmpty c then (result, idx)
                else (mkFilter (status result) c (primary result)
                        (openNow result), S idx)
            | None => (result, idx)
            end
        | None => (result, idx)
        end in
      match partAt parts idx with
      | Some p =>
          if str_eqb (category result) foodAndDrink
             && includesString validPrimaries p
          then mkFilter (status result) (category result) p (openNow result)
          else result
      | None => result
      end.

Definition optionIs (o : option jsstring) (x : jsstring) : bool :=
  match o with
  | Some y => str_eqb y x
  | None => false
  end.

(** The test of [filterPlaces] on one place. *)
Definition keepsPlace (filterState : FilterState) (feature : Place) : bool :=
  if negb (str_eqb (status filterState) all)
     && negb (str_eqb (placeStatus feature) (status filterState))
  then false
  else if negb (str_eqb (category filterState) all)
          && negb (str_eqb (placeCategory feature) (category filterState))
  then false
  else if negb (str_eqb (primary filterState) all)
          && str_eqb (placeCategory feature) foodAndDrink
  then (if negb (optionIs (placePrimary feature) (primary filterState))
        then false else true)
  else true.

Definition filterPlaces (places : list Place) (filterState : FilterState)
  : list Place :=
  filter (keepsPlace filterState) places.

(** A slug: small letters, digits and single hyphens between them. *)
Fixpoint noDoubleHyphen (s : jsstring) : bool :=
  match s with
  | c :: (d :: _) as t => negb (isHyphen c && isHyphen d) && noDoubleHyphen t
  | _ => true
  end.

Fixpoint endsWithHyphen (s : jsstring) : bool :=
  match s with
  | [] => false
  | [c] => isHyphen c
  | _ :: t => endsWithHyphen t
  end.

Definition startsWithHyphen (s : jsstring) : bool :=
  match s with
  | c :: _ => isHyphen c
  | [] => false
  end.

Definition isSlug (s : jsstring) : bool :=
  forallb (fun c => isSlugChar c || isHyphen c) s
  && noDoubleHyphen s
  && negb (startsWithHyphen s) && negb (endsWithHyphen s).

(** A code unit of a slug. *)
Definition slugCode (c : N) : bool := isSlugChar c || isHyphen c.

Definition noSlash (p : jsstring) : bool :=
  forallb (fun c => negb (code_eqb c slash)) p.

(** The states that the hash can carry. *)
Definition carried (places : list Place) (filterState : FilterState) : Prop :=
  openNow filterState = false /\
  In (status filterState) validStatuses /\
  findCategoryBySlug (slugify (category filterState)) places
    = Some (category filterState) /\
  (primary filterState = all \/
   (category filterState = foodAndDrink /\
    In (primary filterState) validPrimaries)).

Definition samplePlaces : list Place :=
  [mkPlace (js "Powell's Books") (js "haunts") (js "Bookstores") None;
   mkPlace (js "Coava") (js "haunts") foodAndDrink (Some (js "coffee"));
   mkPlace (js "Rum Club") (js "queue") foodAndDrink (Some (js "bar"))].

End Filters.

(** ** The display of a website (src/shared.js) *)

Module Website.

(** The class [[^\/\?]]. *)
Definition isHandleCode (c : N) : bool := negb ((c =? 47) || (c =? 63))%N.

Fixpoint takeWhile (p : N -> bool) (s : jsstring) : jsstring :=
  match s with
  | [] => []
  | c :: s' => if p c then c :: takeWhile p s' else []
  end.

(** A literal followed by the group [([^\/\?]+)], at the head of [s];
    the result is the group, which is greedy and not empty. *)
Definition handleAt (lit s : jsstring) : option jsstring :=
  if startsWith s lit then
    match takeWhile isHandleCode (skipn (length lit) s) with
    | [] => None
    | g => Some g
    end
  else None.

Fixpoint firstHandleAt (lits : list jsstring) (s : jsstring)
  : option jsstring :=
  match lits with
  | [] => None
  | lit :: lits' =>
      match handleAt lit s with
      | Some g => Some g
      | None => firstHandleAt lits' s
      end
  end.

(** [s.match(/(?:lit1|lit2)([^\/\?]+)/)]: the group of the first match,
    the positions being tried from left to right and the alternatives in
    their order. *)
Fixpoint matchHandle (lits : list jsstring) (s : jsstring) : option jsstring :=
  match firstHandleAt lits s with
  | Some g => Some g
  | None =>
      match s with
      | [] => None
      | _ :: s' => matchHandle lits s'
      end
  end.

Definition stripPrefix (lit s : jsstring) : option jsstring :=
  if startsWith s lit then Some (skipn (length lit) s) else None.

(** An optional literal, as in [s?] or [(www\.)?]. *)
Definition optionalPrefix (lit s : jsstring) : jsstring :=
  match stripPrefix lit s with
  | Some r => r
  | None => s
  end.

(** What follows [^https?:\/\/], when [s] starts that way. *)
Definition afterScheme (s : jsstring) : option jsstring :=
  match stripPrefix (js "http") s with
  | Some r => stripPrefix (js "://") (optionalPrefix (js "s") r)
  | None => None
  end.

(** [url.match(/twitter\.com|^https?:\/\/(www\.)?x\.com/)] as a test. *)
Definition isTwitterUrl (url : jsstring) : bool :=
  includes url (js "twitter.com") ||
  match afterScheme url with
  | Some r => startsWith (optionalPrefix (js "www.") r) (js "x.com")
  | None => false
  end.

(** [.replace(/^https?:\/\//, '')] *)
Definition dropScheme (url : jsstring) : jsstring :=
  match afterScheme url with
  | Some r => r
  | None => url
  end.

(** [.replace(/\/$/, '')]: one slash at the end is removed. *)
Fixpoint dropLastSlash (s : jsstring) : jsstring :=
  match s with
  | [] => []
  | [c] => if (c =? 47)%N then [] else [c]
  | c :: s' => c :: dropLastSlash s'
  end.

Definition at_sign : N := 64%N.

Definition formatWebsiteDisplay (url : jsstring) : option jsstring :=
  if isEmpty url then None
  else
    let igMatch := matchHandle [js "instagram.com/"] url in
    match
      match igMatch with
      | Some g =>
          if negb (str_eqb g (js "p")) && negb (str_eqb g (js "explore"))
          then Some (at_sign :: g) else None
      | None => None
      end
    with
    | Some display => Some display
    | None =>
        match
          if includes url (js "facebook.com/") then
            match matchHandle [js "facebook.com/"] url with
            | Some g => Some (at_sign :: g)
            | None => None
            end
          else None
        with
        | Some display => Some display
        | None =>
            match
              if isTwitterUrl url then
                match matchHandle [js "twitter.com/"; js "x.com/"] url with
                | Some g => Some (at_sign :: g)
                | None => None
                end
              else None
            with
            | Some display => Some display
            | None =>
                Some (hd [] (splitOn 47%N (dropLastSlash (dropScheme url))))
            end
        end
    end.

Definition instagram : jsstring := js "instagram.com/".

(** The ways a profile address starts. *)
Definition webPrefixes : list jsstring :=
  [js ""; js "http://"; js "https://"; js "http://www."; js "https://www.";
   js "www."].

End Website.

(** ** Vocabulary of the further properties *)

Definition overlappingShifts : WeeklyHours :=
  Some [Some (js "Monday: 9:00 AM - 5:00 PM, 4:00 PM - 11:00 PM")].

(** A code unit that is no dash, no comma and not the letter O. *)
Definition isPlainCode (c : N) : bool :=
  negb (isDash c) && negb (c =? 44)%N && negb (c =? 79)%N.

(** A text of plain code units that starts with a digit and does not end
    with white space. *)
Definition plainToken (t : jsstring) : bool :=
  forallb isPlainCode t
  && match t with c :: _ => isDigit c | [] => false end
  && match List.rev t with c :: _ => negb (isSpace c) | [] => false end.

(** [Number.MAX_SAFE_INTEGER], 2^53 - 1. The numbers of the code are
    doubles: up to this bound every integer is a double, and the double
    nearest to [minutes / 60] has the floor of the exact quotient (the
    quotient is at least 1/60 below the next integer, and below 2^48 the
    rounding error is at most 2^-6, which is less), so that
    [formatMinutesAsTime] computes what its embedding computes. Beyond
    it the quotient can be rounded to another integer. *)
Definition MAX_SAFE_INTEGER : Z := 9007199254740991.

(** The minutes of the day, for properties that are checked minute by
    minute. *)
Definition dayMinutes : list Z := map Z.of_nat (seq 0 1440).

(** [formatMinutesAsTime v] is the token of some hour from 1 to 12 and
    minute from 0 to 59, and [parseTime] reads it back as [v]. *)
Definition formatsBack (v : Z) : bool :=
  hasMeridiem (formatMinutesAsTime v) &&
  match parseTime (formatMinutesAsTime v) false None with
  | Some w => w =? v
  | None => false
  end &&
  existsb (fun h =>
    existsb (fun p =>
      str_eqb (formatMinutesAsTime v) (clockToken h (Z.rem v 60) p))
      [AM; PM]) clockHours.

(** The current minute lies in the range, as [checkTimeRange] decides it;
    a range of 24 hours covers every minute. *)
Definition covers (r : TimeRange) (currentMinutes : Z) : Prop :=
  is24h r = true \/
  (start r <= end_ r /\ start r <= currentMinutes < end_ r) \/
  (end_ r < start r /\ (start r <= currentMinutes \/ currentMinutes < end_ r)).

(** * Properties *)

(** ** The assertions of tests/app.test.js, run on the embedding *)

Example test_parseTime_AM : parseTime (js "9:00 AM") false None = Some 540.
Proof. reflexivity. Qed.

Example test_parseTime_PM : parseTime (js "3:00 PM") false None = Some 900.
Proof. reflexivity. Qed.

Example test_parseTime_noon : parseTime (js "12:00 PM") false None = Some 720.
Proof. reflexivity. Qed.

Example test_parseTime_midnight : parseTime (js "12:00 AM") false None = Some 0.
Proof. reflexivity. Qed.

Example test_parseTime_infers_PM : parseTime (js "9:00") true (Some 720) = Some 1260.
Proof. reflexivity. Qed.

Example test_parseTimeRange_standard :
  parseTimeRange (Some (js "9:00 AM " ++ enDash ++ js " 5:00 PM"))
  = Some [mkRange 540 1020 false].
Proof. reflexivity. Qed.

Example test_parseTimeRange_closed : parseTimeRange (Some (js "Closed")) = None.
Proof. reflexivity. Qed.

Example test_parseTimeRange_split_shifts :
  parseTimeRange
    (Some (js "11:00 AM " ++ enDash ++ js " 3:00 PM, 5:00 " ++ enDash
             ++ js " 10:00 PM"))
  = Some [mkRange 660 900 false; mkRange 1020 1320 false].
Proof. reflexivity. Qed.

Example test_formatMinutesAsTime :
  formatMinutesAsTime 540 = js "9:00 AM" /\
  formatMinutesAsTime 900 = js "3:00 PM" /\
  formatMinutesAsTime 0 = js "12:00 AM" /\
  formatMinutesAsTime 720 = js "12:00 PM".
Proof. repeat split. Qed.

Example test_getOpenStatus_empty :
  getOpenStatus (Some []) (mkDate 1 16 30) = unknownStatus /\
  getOpenStatus None (mkDate 1 16 30) = unknownStatus.
Proof. split; reflexivity. Qed.

(** The scenario of the specification: Monday 16:30 with
    "Monday: 9:00 AM - 5:00 PM". *)
Example test_getOpenStatus_closing_soon :
  getOpenStatus mondayOnly (mkDate 1 16 30)
  = mkStatus true true (Some 30) (Some (js "5:00 PM")) StatusClosingSoon None
      (Some (js "9:00 AM - 5:00 PM")).
Proof. reflexivity. Qed.

(** ** Auxiliary facts on the string primitives *)

Ltac zbool :=
  repeat match goal with
  | |- context [ (?a =? ?b)%Z ] => destruct (Z.eqb_spec a b)
  | |- context [ (?a <? ?b)%Z ] => destruct (Z.ltb_spec a b)
  | |- context [ (?a <=? ?b)%Z ] => destruct (Z.leb_spec a b)
  | |- context [ (?a >? ?b)%Z ] => rewrite (Z.gtb_ltb a b)
  | |- context [ (?a >=? ?b)%Z ] => rewrite (Z.geb_leb a b)
  end.

Lemma isDigit_value c : isDigit c = true -> 0 <= digitValue c <= 9.
Proof.
  unfold isDigit, digitValue. intros H.
  apply andb_true_iff in H. destruct H as [H1 H2].
  apply N.leb_le in H1, H2. lia.
Qed.

Lemma parseInt10_two_digits a b :
  parseInt10 [a; b] = digitValue a * 10 + digitValue b.
Proof. unfold parseInt10. simpl. lia. Qed.

Lemma parseInt10_one_digit a : parseInt10 [a] = digitValue a.
Proof. unfold parseInt10. simpl. lia. Qed.

Lemma timeTail_groups h r g1 g2 g3 :
  timeTail h r = Some (g1, g2, g3) ->
  g1 = h /\
  (exists m1 m2, g2 = [m1; m2] /\ isDigit m1 = true /\ isDigit m2 = true) /\
  (forall g, g3 = Some g -> isMeridiem g = true).
Proof.
  unfold timeTail.
  destruct r as [|c [|m1 [|m2 rest]]]; try discriminate.
  destruct (c =? 58)%N; [|discriminate].
  destruct (isDigit m1) eqn:D1; [|discriminate].
  destruct (isDigit m2) eqn:D2; [|discriminate]. cbn [andb].
  destruct (dropWhile isSpace rest) as [|x g] eqn:E.
  - intros H. injection H as <- <- <-.
    split; [reflexivity|]. split; [eauto|]. discriminate.
  - destruct (isMeridiem (x :: g)) eqn:M; [|discriminate].
    intros H. injection H as <- <- <-.
    split; [reflexivity|]. split; [eauto|].
    intros g' Hg. injection Hg as <-. exact M.
Qed.

(** The groups of a match: an hour of one or two digits, a minute of two
    digits, and a meridiem if there is one. *)
Lemma matchTime_groups s g1 g2 g3 :
  matchTime s = Some (g1, g2, g3) ->
  0 <= parseInt10 g1 <= 99 /\ 0 <= parseInt10 g2 <= 99 /\
  (forall g, g3 = Some g -> isMeridiem g = true).
Proof.
  unfold matchTime.
  destruct s as [|d1 [|d2 r]]; try discriminate.
  assert (T : forall h, 0 <= parseInt10 h <= 99 ->
            timeTail h (if (length h =? 2)%nat then r else d2 :: r)
              = Some (g1, g2, g3) ->
            0 <= parseInt10 g1 <= 99 /\ 0 <= parseInt10 g2 <= 99 /\
            (forall g, g3 = Some g -> isMeridiem g = true)).
  { intros h Hh H. apply timeTail_groups in H.
    destruct H as (-> & (m1 & m2 & -> & D1 & D2) & M).
    split; [exact Hh|]. split; [|exact M].
    rewrite parseInt10_two_digits.
    apply isDigit_value in D1, D2. lia. }
  destruct (isDigit d1) eqn:D1; simpl; [|discriminate].
  assert (H1 : 0 <= parseInt10 [d1] <= 99).
  { rewrite parseInt10_one_digit. apply isDigit_value in D1. lia. }
  destruct (isDigit d2) eqn:D2.
  - assert (H2 : 0 <= parseInt10 [d1; d2] <= 99).
    { rewrite parseInt10_two_digits. apply isDigit_value in D1, D2. lia. }
    destruct (timeTail [d1; d2] r) as [g|] eqn:E.
    + intros H. injection H as ->. exact (T [d1; d2] H2 E).
    + intros H. exact (T [d1] H1 H).
  - intros H. exact (T [d1] H1 H).
Qed.

Lemma isMeridiem_upper g :
  isMeridiem g = true -> toUpperCase g = js "AM" \/ toUpperCase g = js "PM".
Proof.
  destruct g as [|a [|m [|x g]]]; try discriminate. simpl.
  intros H. apply andb_true_iff in H. destruct H as [Ha Hm].
  repeat (apply orb_true_iff in Ha; destruct Ha as [Ha|Ha]);
  repeat (apply orb_true_iff in Hm; destruct Hm as [Hm|Hm]);
  apply N.eqb_eq in Ha, Hm; subst; auto.
Qed.

Lemma matchTime_nonempty s g : matchTime (trim s) = Some g -> isEmpty s = false.
Proof. destruct s; [discriminate|reflexivity]. Qed.

(** [parseTime] on a text that the pattern accepts. *)
Lemma parseTime_matched s isEndTime startMinutes g1 g2 g3 :
  matchTime (trim s) = Some (g1, g2, g3) ->
  parseTime s isEndTime startMinutes =
    let hours := parseInt10 g1 in
    let minutes := parseInt10 g2 in
    let period := option_map toUpperCase g3 in
    Some ((if periodIs period "PM" && negb (hours =? 12) then hours + 12
           else if periodIs period "AM" && (hours =? 12) then 0
           else if noPeriod period then
             inferHour hours minutes isEndTime startMinutes
           else hours) * 60 + minutes).
Proof.
  intros H. unfold parseTime.
  rewrite (matchTime_nonempty _ H), H. reflexivity.
Qed.

Lemma parseTime_no_meridiem s isEndTime startMinutes g1 g2 :
  matchTime (trim s) = Some (g1, g2, None) ->
  parseTime s isEndTime startMinutes =
    Some (inferHour (parseInt10 g1) (parseInt10 g2) isEndTime startMinutes * 60
          + parseInt10 g2).
Proof. intros H. rewrite (parseTime_matched _ _ _ H). reflexivity. Qed.

Lemma parseTime_AM s isEndTime startMinutes g1 g2 g :
  matchTime (trim s) = Some (g1, g2, Some g) ->
  toUpperCase g = js "AM" ->
  parseTime s isEndTime startMinutes =
    Some ((if parseInt10 g1 =? 12 then 0 else parseInt10 g1) * 60
          + parseInt10 g2).
Proof.
  intros H U. rewrite (parseTime_matched _ _ _ H). simpl. rewrite U.
  change (str_eqb (js "AM") (js "PM")) with false.
  change (str_eqb (js "AM") (js "AM")) with true. simpl.
  destruct (parseInt10 g1 =? 12); reflexivity.
Qed.

Lemma parseTime_PM s isEndTime startMinutes g1 g2 g :
  matchTime (trim s) = Some (g1, g2, Some g) ->
  toUpperCase g = js "PM" ->
  parseTime s isEndTime startMinutes =
    Some ((if parseInt10 g1 =? 12 then parseInt10 g1 else parseInt10 g1 + 12)
          * 60 + parseInt10 g2).
Proof.
  intros H U. rewrite (parseTime_matched _ _ _ H). simpl. rewrite U.
  change (str_eqb (js "PM") (js "PM")) with true.
  change (str_eqb (js "PM") (js "AM")) with false. simpl.
  destruct (parseInt10 g1 =? 12); reflexivity.
Qed.

(** ** C1: an end time without meridiem and without known start *)

(** C1, as the specification words it, does not hold: the text "5:00"
    parsed as an end time with no known start gives 1020 (5 PM), not the
    literal 300. *)
Lemma parseTime_end_no_start_not_literal :
  ~ (forall s g1 g2,
       matchTime (trim s) = Some (g1, g2, None) ->
       parseTime s true None = Some (parseInt10 g1 * 60 + parseInt10 g2)).
Proof.
  intros H. specialize (H (js "5:00") (js "5") (js "00") eq_refl).
  vm_compute in H. discriminate.
Qed.

(** C1 (amended): for a text without meridiem parsed as an end time with
    no known start, [parseTime] applies the rule of start times: hours 1
    to 6 are moved to the afternoon (12 hours are added), every other hour
    is used as it is written. *)
Theorem parseTime_end_no_start s g1 g2 :
  matchTime (trim s) = Some (g1, g2, None) ->
  let h := parseInt10 g1 in
  let m := parseInt10 g2 in
  (1 <= h <= 6 -> parseTime s true None = Some ((h + 12) * 60 + m)) /\
  (~ 1 <= h <= 6 -> parseTime s true None = Some (h * 60 + m)) /\
  parseTime s true None = parseTime s false None.
Proof.
  intros H h m.
  rewrite (parseTime_no_meridiem _ true None H).
  rewrite (parseTime_no_meridiem _ false None H).
  fold h m. unfold inferHour.
  repeat split; intros; zbool; simpl; try reflexivity; lia.
Qed.

Lemma parseTime_end_no_start_witness :
  parseTime (js "5:30") true None = Some 1050 /\
  parseTime (js "9:30") true None = Some 570.
Proof.
  pose proof (@parseTime_end_no_start (js "5:30") (js "5") (js "30") eq_refl) as H5.
  pose proof (@parseTime_end_no_start (js "9:30") (js "9") (js "30") eq_refl) as H9.
  split.
  - apply (proj1 H5). vm_compute. split; discriminate.
  - apply (proj1 (proj2 H9)). vm_compute. intros [_ H]. apply H. reflexivity.
Defined.

(** ** C2: the value returned by [parseTime] *)

(** C2, as the specification words it, does not hold: "23:59", read
    literally with no adjustment, gives 1439, above the bound 1380. *)
Lemma parseTime_exceeds_1380 :
  ~ (forall s v,
       singleDayToken s -> parseTime s false None = Some v -> 0 <= v <= 1380).
Proof.
  intros H.
  assert (T : singleDayToken (js "23:59")).
  { exists (js "23"), (js "59"), None. vm_compute.
    repeat split; discriminate. }
  specialize (H (js "23:59") 1439 T eq_refl). lia.
Qed.

Lemma inferHour_bound h m isEndTime startMinutes :
  0 <= h <= 23 -> 0 <= inferHour h m isEndTime startMinutes <= 23.
Proof.
  intros Hh. unfold inferHour.
  destruct isEndTime, startMinutes; zbool; simpl; zbool; lia.
Qed.

(** C2 (amended): on every text that the pattern accepts, [parseTime]
    returns [hours * 60 + minutes], where [minutes] is the minute group
    and [hours] is the hour group after the meridiem conversion or the
    inference (the hour itself, the hour plus 12, or 0); for a token of a
    single day the value lies in the interval from 0 to 1439. *)
Theorem parseTime_value s isEndTime startMinutes g1 g2 g3 :
  matchTime (trim s) = Some (g1, g2, g3) ->
  (exists hours,
     parseTime s isEndTime startMinutes = Some (hours * 60 + parseInt10 g2) /\
     (hours = parseInt10 g1 \/ hours = parseInt10 g1 + 12 \/ hours = 0)) /\
  (singleDayToken s ->
   exists v, parseTime s isEndTime startMinutes = Some v /\ 0 <= v <= 1439).
Proof.
  intros H.
  destruct (matchTime_groups _ H) as (Hh & Hm & Hg).
  split.
  - destruct g3 as [g|].
    + destruct (isMeridiem_upper _ (Hg g eq_refl)) as [U|U].
      * rewrite (parseTime_AM _ _ _ H U). eexists. split; [reflexivity|].
        destruct (parseInt10 g1 =? 12); auto.
      * rewrite (parseTime_PM _ _ _ H U). eexists. split; [reflexivity|].
        destruct (parseInt10 g1 =? 12); auto.
    + rewrite (parseTime_no_meridiem _ _ _ H). eexists. split; [reflexivity|].
      unfold inferHour.
      destruct isEndTime, startMinutes; simpl;
        repeat match goal with |- context [if ?b then _ else _] => destruct b end;
        auto.
  - intros (g1' & g2' & g3' & H' & Hm' & Hh').
    rewrite H in H'. injection H' as <- <- <-.
    destruct g3 as [g|].
    + destruct (isMeridiem_upper _ (Hg g eq_refl)) as [U|U].
      * rewrite (parseTime_AM _ _ _ H U). eexists. split; [reflexivity|].
        zbool; lia.
      * rewrite (parseTime_PM _ _ _ H U). eexists. split; [reflexivity|].
        zbool; lia.
    + rewrite (parseTime_no_meridiem _ _ _ H). eexists. split; [reflexivity|].
      pose proof (@inferHour_bound (parseInt10 g1) (parseInt10 g2)
                    isEndTime startMinutes). lia.
Qed.

Lemma parseTime_value_witness :
  exists v, parseTime (js "11:59 PM") true (Some 720) = Some v /\ 0 <= v <= 1439.
Proof.
  refine (proj2 (@parseTime_value (js "11:59 PM") true (Some 720)
                   (js "11") (js "59") (Some (js "PM")) eq_refl) _).
  exists (js "11"), (js "59"), (Some (js "PM")).
  vm_compute. repeat split; discriminate.
Defined.

(** ** C3: ranges that wrap past midnight *)

Lemma checkTimeRange_some range currentMinutes todayStr :
  fst (rangeState range currentMinutes) = true ->
  checkTimeRange range currentMinutes todayStr =
    let m := snd (rangeState range currentMinutes) in
    let soon := (m <=? CLOSING_SOON_MINUTES) && (m >? 0) in
    Some (mkStatus true soon (Some m)
            (Some (formatMinutesAsTime (Z.rem (end_ range) 1440)))
            (if soon then StatusClosingSoon else StatusOpen)
            None (Some todayStr)).
Proof.
  unfold checkTimeRange.
  destruct (rangeState range currentMinutes) as [b m]. simpl.
  intros ->. reflexivity.
Qed.

Lemma checkTimeRange_none range currentMinutes todayStr :
  fst (rangeState range currentMinutes) = false ->
  checkTimeRange range currentMinutes todayStr = None.
Proof.
  unfold checkTimeRange.
  destruct (rangeState range currentMinutes) as [b m]. simpl.
  intros ->. reflexivity.
Qed.

(** C3: for a range with [end < start], the current minute is in the
    range exactly when [current >= start] or [current < end], and the
    minutes until close are [(1440 - current) + end] when
    [current >= start] and [end - current] otherwise. *)
Theorem checkTimeRange_overnight range currentMinutes todayStr :
  end_ range < start range ->
  ((exists result, checkTimeRange range currentMinutes todayStr = Some result)
   <-> (currentMinutes >= start range \/ currentMinutes < end_ range)) /\
  (forall result,
     checkTimeRange range currentMinutes todayStr = Some result ->
     isOpen result = true /\
     (currentMinutes >= start range ->
      minutesUntilClose result = Some ((1440 - currentMinutes) + end_ range)) /\
     (currentMinutes < start range ->
      minutesUntilClose result = Some (end_ range - currentMinutes))).
Proof.
  intros W.
  assert (S : rangeState range currentMinutes =
              ((currentMinutes >=? start range) || (currentMinutes <? end_ range),
               if currentMinutes >=? start range
               then (1440 - currentMinutes) + end_ range
               else end_ range - currentMinutes)).
  { unfold rangeState. apply Z.ltb_lt in W. rewrite W. reflexivity. }
  destruct (fst (rangeState range currentMinutes)) eqn:F.
  - rewrite (checkTimeRange_some _ _ _ F). rewrite S in *. simpl in *.
    split.
    + split; [intros _ | intros _; eexists; reflexivity].
      apply orb_true_iff in F. destruct F as [F|F].
      * left. apply Z.geb_le in F. lia.
      * right. apply Z.ltb_lt in F. exact F.
    + intros result R. injection R as <-. simpl.
      split; [reflexivity|].
      split; intros C; zbool; try reflexivity; lia.
  - rewrite (checkTimeRange_none _ _ _ F). rewrite S in F. simpl in F.
    apply orb_false_iff in F. destruct F as [F1 F2].
    rewrite Z.geb_leb in F1. apply Z.leb_gt in F1. apply Z.ltb_ge in F2.
    split.
    + split; [intros [r R]; discriminate | lia].
    + intros result R. discriminate.
Qed.

(** The range 10 PM to 1 AM: 12:30 AM is in range with 30 minutes left,
    and 11:59 PM is in range. *)
Lemma checkTimeRange_overnight_witness :
  (exists result,
     checkTimeRange (mkRange 1320 60 false) 30 (js "10:00 PM - 1:00 AM")
       = Some result /\
     minutesUntilClose result = Some 30) /\
  (exists result,
     checkTimeRange (mkRange 1320 60 false) (1440 - 1) (js "10:00 PM - 1:00 AM")
       = Some result).
Proof.
  assert (W : end_ (mkRange 1320 60 false) < start (mkRange 1320 60 false))
    by (simpl; lia).
  split.
  - destruct (@checkTimeRange_overnight (mkRange 1320 60 false) 30
                (js "10:00 PM - 1:00 AM") W) as [I M].
    destruct (proj2 I) as [result R]; [right; simpl; lia|].
    exists result. split; [exact R|].
    destruct (M result R) as (_ & _ & E). apply E. simpl. lia.
  - apply (proj1 (@checkTimeRange_overnight (mkRange 1320 60 false) (1440 - 1)
                    (js "10:00 PM - 1:00 AM") W)).
    left. simpl. lia.
Defined.

(** ** C4: the closing-soon window *)

Lemma rangeState_past_close range currentMinutes :
  0 <= currentMinutes < 1440 -> 0 <= end_ range ->
  snd (rangeState range currentMinutes) <= 0 ->
  fst (rangeState range currentMinutes) = false.
Proof.
  intros Hc He. unfold rangeState.
  zbool; cbn [fst snd]; zbool; cbn [fst snd orb andb]; intros Hm;
    try reflexivity; exfalso; lia.
Qed.

(** C4: a range that matches is reported [closing-soon] exactly when
    [0 < minutesUntilClose <= 45] and [open] otherwise, in particular at
    46; and at a minute of the day at or past the close, where
    [minutesUntilClose] would be zero or negative, the range does not
    match and the loop of [getOpenStatus] goes on with the ranges that
    follow it. *)
Theorem checkTimeRange_closing_soon range currentMinutes todayStr :
  (forall result,
     checkTimeRange range currentMinutes todayStr = Some result ->
     exists m,
       minutesUntilClose result = Some m /\
       m = snd (rangeState range currentMinutes) /\
       (status result = StatusClosingSoon <-> 0 < m <= 45) /\
       (status result = StatusOpen <-> ~ 0 < m <= 45) /\
       (m = 46 -> status result = StatusOpen)) /\
  (0 <= currentMinutes < 1440 -> 0 <= end_ range ->
   snd (rangeState range currentMinutes) <= 0 ->
   checkTimeRange range currentMinutes todayStr = None /\
   (is24h range = false ->
    forall rs,
      scanRanges (range :: rs) currentMinutes todayStr
      = scanRanges rs currentMinutes todayStr)).
Proof.
  split.
  - intros result R.
    destruct (fst (rangeState range currentMinutes)) eqn:F.
    + rewrite (checkTimeRange_some _ _ _ F) in R. injection R as <-.
      exists (snd (rangeState range currentMinutes)). simpl.
      split; [reflexivity|]. split; [reflexivity|].
      set (m := snd (rangeState range currentMinutes)).
      unfold CLOSING_SOON_MINUTES. rewrite (Z.gtb_ltb m 0).
      destruct (Z.leb_spec m 45), (Z.ltb_spec 0 m); simpl;
        repeat split; intros; try reflexivity; try discriminate; lia.
    + rewrite (checkTimeRange_none _ _ _ F) in R. discriminate.
  - intros Hc He Hm.
    assert (F : fst (rangeState range currentMinutes) = false)
      by (apply rangeState_past_close; assumption).
    assert (N : checkTimeRange range currentMinutes todayStr = None)
      by (apply checkTimeRange_none; exact F).
    split; [exact N|].
    intros H24 rs. simpl. rewrite H24, N. reflexivity.
Qed.

Lemma checkTimeRange_closing_soon_witness :
  (exists result,
     checkTimeRange (mkRange 540 1020 false) 974 (js "9:00 AM - 5:00 PM")
       = Some result /\ status result = StatusOpen) /\
  (exists result,
     checkTimeRange (mkRange 540 1020 false) 975 (js "9:00 AM - 5:00 PM")
       = Some result /\ status result = StatusClosingSoon) /\
  checkTimeRange (mkRange 540 1020 false) 1020 (js "9:00 AM - 5:00 PM") = None.
Proof.
  pose proof (fun c => @checkTimeRange_closing_soon (mkRange 540 1020 false) c
                         (js "9:00 AM - 5:00 PM")) as T.
  split; [|split].
  - eexists. split; [reflexivity|].
    destruct (proj1 (T 974) _ eq_refl) as (m & E & _ & _ & _ & H46).
    injection E as <-. apply H46. reflexivity.
  - eexists. split; [reflexivity|].
    destruct (proj1 (T 975) _ eq_refl) as (m & E & _ & Hs & _).
    injection E as <-. apply Hs. lia.
  - apply (proj2 (T 1020)); simpl; lia.
Defined.

(** ** C7 and C6: the range parser *)

Lemma code_eqb_refl c : code_eqb c c = true.
Proof. apply N.eqb_refl. Qed.

Lemma str_eqb_eq a b : str_eqb a b = true <-> a = b.
Proof.
  revert b. induction a as [|x a IH]; intros [|y b]; simpl;
    try (split; [discriminate|discriminate]); try tauto.
  rewrite andb_true_iff, IH. unfold code_eqb. rewrite N.eqb_eq.
  split; [intros [-> ->]; reflexivity | intros H; injection H; auto].
Qed.

Lemma startsWith_app p s : startsWith (p ++ s) p = true.
Proof.
  induction p as [|x p IH]; simpl; [reflexivity|].
  rewrite code_eqb_refl. exact IH.
Qed.

Lemma startsWith_prefix s p :
  startsWith s p = true -> exists rest, s = p ++ rest.
Proof.
  revert s. induction p as [|x p IH]; intros s; simpl.
  - intros _. exists s. reflexivity.
  - destruct s as [|y s]; [discriminate|].
    intros H. apply andb_true_iff in H. destruct H as [E H].
    apply N.eqb_eq in E. subst y.
    destruct (IH _ H) as [rest ->]. exists rest. reflexivity.
Qed.

(** [includes] finds exactly the substrings. *)
Lemma includes_spec s p :
  includes s p = true <-> exists before after, s = before ++ p ++ after.
Proof.
  split.
  - induction s as [|c s IH]; simpl; intros H;
      apply orb_true_iff in H; destruct H as [H|H].
    + apply startsWith_prefix in H. destruct H as [rest ->].
      exists [], rest. reflexivity.
    + discriminate.
    + apply startsWith_prefix in H. destruct H as [rest ->].
      exists [], rest. reflexivity.
    + destruct (IH H) as (b & a & ->). exists (c :: b), a. reflexivity.
  - intros (b & a & ->). induction b as [|c b IH].
    + simpl app. destruct (p ++ a) eqn:E; simpl;
        rewrite <- E, startsWith_app; reflexivity.
    + simpl. rewrite IH. apply orb_true_r.
Qed.

(** C7: whatever stands before and after it, a text that contains
    "Open 24 hours" is parsed as the single range from 0 to 1440 with
    [is24h] set. *)
Theorem parseTimeRange_open_24_hours (before after : jsstring) :
  parseTimeRange (Some (before ++ js "Open 24 hours" ++ after))
  = Some [mkRange 0 1440 true].
Proof.
  set (s := before ++ js "Open 24 hours" ++ after).
  assert (L : (13 <= length s)%nat).
  { unfold s. rewrite !length_app. simpl. lia. }
  assert (I : includes s (js "Open 24 hours") = true).
  { apply includes_spec. exists before, after. reflexivity. }
  unfold parseTimeRange.
  destruct (isEmpty s) eqn:E.
  - destruct s; [simpl in L; lia | discriminate].
  - destruct (str_eqb s (js "Closed")) eqn:C.
    + apply str_eqb_eq in C. rewrite C in L. simpl in L. lia.
    + simpl. rewrite I. reflexivity.
Qed.

Lemma fold_pushPeriod periods results :
  fold_left pushPeriod periods results = results ++ parsedPeriods periods.
Proof.
  revert results. induction periods as [|p ps IH]; intros results; simpl.
  - rewrite app_nil_r. reflexivity.
  - rewrite IH. unfold pushPeriod.
    destruct (parsePeriod p); simpl.
    + rewrite <- app_assoc. reflexivity.
    + reflexivity.
Qed.

Lemma parsedPeriods_nil periods :
  parsedPeriods periods = [] <->
  forall p, In p periods -> parsePeriod p = None.
Proof.
  induction periods as [|p ps IH]; simpl.
  - split; [intros _ q [] | reflexivity].
  - destruct (parsePeriod p) eqn:E; simpl.
    + split; [discriminate|].
      intros H. specialize (H p (or_introl eq_refl)). congruence.
    + rewrite IH. split.
      * intros H q [<-|Hq]; auto.
      * intros H q Hq. apply H. right. exact Hq.
Qed.

Lemma parsedPeriods_In periods r :
  In r (parsedPeriods periods) <->
  exists p, In p periods /\ parsePeriod p = Some r.
Proof.
  unfold parsedPeriods. rewrite in_flat_map. split.
  - intros (p & Hp & Hr). exists p. split; [exact Hp|].
    destruct (parsePeriod p); simpl in Hr; [|contradiction].
    destruct Hr as [->|[]]. reflexivity.
  - intros (p & Hp & E). exists p. split; [exact Hp|].
    rewrite E. left. reflexivity.
Qed.

(** [parseTimeRange] on a text that is not one of the special cases. *)
Lemma parseTimeRange_ordinary s :
  isEmpty s = false -> str_eqb s (js "Closed") = false ->
  includes s (js "Open 24 hours") = false ->
  parseTimeRange (Some s) =
    match parsedPeriods (periodsOf s) with
    | [] => None
    | rs => Some rs
    end.
Proof.
  intros E C I. unfold parseTimeRange. rewrite E, C, I. simpl.
  rewrite fold_pushPeriod. simpl.
  destruct (parsedPeriods (periodsOf s)); reflexivity.
Qed.

Lemma parsedPeriods_discard before bad after :
  parsePeriod bad = None ->
  parsedPeriods (before ++ bad :: after) = parsedPeriods (before ++ after).
Proof.
  intros H. unfold parsedPeriods. rewrite !flat_map_app. simpl.
  rewrite H. reflexivity.
Qed.

(** C6: [parseTimeRange] returns [null] exactly when the input is [null]
    or empty, is the text "Closed", or does not contain "Open 24 hours"
    and none of its periods parses; it never returns an empty sequence;
    every period that parses is in the result, whatever happens to the
    other periods of the text; and the result holds nothing else: it is
    the sequence of the ranges of the periods that parse, in the order of
    the text, so that a period that does not parse is left out and the
    result is that of the other periods. *)
Theorem parseTimeRange_null (input : option jsstring) :
  (parseTimeRange input = None <->
   input = None \/ input = Some [] \/ input = Some (js "Closed") \/
   exists s, input = Some s /\
     includes s (js "Open 24 hours") = false /\
     forall p, In p (periodsOf s) -> parsePeriod p = None) /\
  parseTimeRange input <> Some [] /\
  (forall s p r,
     input = Some s -> s <> js "Closed" ->
     includes s (js "Open 24 hours") = false ->
     In p (periodsOf s) -> parsePeriod p = Some r ->
     exists rs, parseTimeRange input = Some rs /\ In r rs) /\
  (forall s rs,
     input = Some s -> includes s (js "Open 24 hours") = false ->
     parseTimeRange input = Some rs ->
     rs = flat_map
            (fun p => match parsePeriod p with Some r => [r] | None => [] end)
            (periodsOf s) /\
     forall before bad after,
       periodsOf s = before ++ bad :: after -> parsePeriod bad = None ->
       rs = flat_map
              (fun p => match parsePeriod p with Some r => [r] | None => [] end)
              (before ++ after)).
Proof.
  assert (Exact : forall s rs,
            includes s (js "Open 24 hours") = false ->
            parseTimeRange (Some s) = Some rs ->
            rs = parsedPeriods (periodsOf s) /\
            forall before bad after,
              periodsOf s = before ++ bad :: after -> parsePeriod bad = None ->
              rs = parsedPeriods (before ++ after)).
  { intros s rs I P.
    assert (R : rs = parsedPeriods (periodsOf s)).
    { unfold parseTimeRange in P.
      destruct (isEmpty s || str_eqb s (js "Closed")); [discriminate|].
      rewrite I in P. cbv zeta in P. rewrite fold_pushPeriod in P.
      simpl app in P.
      destruct (0 <? length (parsedPeriods (periodsOf s)))%nat;
        [|discriminate].
      injection P as <-. reflexivity. }
    split; [exact R|].
    intros before bad after Hp Hb. rewrite R, Hp.
    apply parsedPeriods_discard. exact Hb. }
  destruct input as [s|].
  2:{ split; [|split; [|split]].
      - split; [auto | reflexivity].
      - discriminate.
      - intros s p r H. discriminate.
      - intros s rs H. discriminate. }
  assert (Last : forall s' rs,
            Some s = Some s' -> includes s' (js "Open 24 hours") = false ->
            parseTimeRange (Some s) = Some rs ->
            rs = flat_map
                   (fun p => match parsePeriod p with
                             | Some r => [r] | None => [] end)
                   (periodsOf s') /\
            forall before bad after,
              periodsOf s' = before ++ bad :: after -> parsePeriod bad = None ->
              rs = flat_map
                     (fun p => match parsePeriod p with
                               | Some r => [r] | None => [] end)
                     (before ++ after)).
  { intros s' rs H I P. injection H as <-. exact (Exact s rs I P). }
  destruct (isEmpty s) eqn:E.
  { destruct s; [|discriminate]. split; [|split; [|split]].
    - split; [auto | reflexivity].
    - discriminate.
    - intros s p r H _ _ Hp Hr. injection H as <-.
      simpl in Hp. destruct Hp as [<-|[]]. vm_compute in Hr. discriminate.
    - exact Last. }
  destruct (str_eqb s (js "Closed")) eqn:C.
  { apply str_eqb_eq in C. subst s. split; [|split; [|split]].
    - split; [auto | reflexivity].
    - discriminate.
    - intros s p r H N. injection H as <-. contradiction.
    - exact Last. }
  destruct (includes s (js "Open 24 hours")) eqn:I.
  { assert (P : parseTimeRange (Some s) = Some [range24h]).
    { unfold parseTimeRange. rewrite E, C, I. reflexivity. }
    split; [|split; [|split]]; [| | |exact Last]; rewrite P.
    - split; [discriminate|].
      intros [H|[H|[H|(s' & H & I' & _)]]]; try discriminate.
      + injection H as ->. discriminate.
      + injection H as ->. vm_compute in C. discriminate.
      + injection H as <-. congruence.
    - discriminate.
    - intros s' p r H _ I'. injection H as <-. congruence. }
  split; [|split; [|split]]; [| | |exact Last];
    rewrite (parseTimeRange_ordinary _ E C I).
  - destruct (parsedPeriods (periodsOf s)) as [|r rs] eqn:P.
    + split; [intros _ | reflexivity].
      right. right. right. exists s.
      split; [reflexivity|]. split; [exact I|].
      apply parsedPeriods_nil. exact P.
    + split; [discriminate|].
      intros [H|[H|[H|(s' & H & _ & N)]]]; try discriminate.
      * injection H as ->. discriminate.
      * injection H as ->. vm_compute in C. discriminate.
      * injection H as <-. apply parsedPeriods_nil in N. congruence.
  - destruct (parsedPeriods (periodsOf s)); discriminate.
  - intros s' p r H _ _ Hp Hr. injection H as <-.
    assert (In r (parsedPeriods (periodsOf s))) as Hin
      by (apply parsedPeriods_In; eauto).
    destruct (parsedPeriods (periodsOf s)) as [|r0 rs]; [contradiction|].
    eexists. split; [reflexivity | exact Hin].
Qed.

Lemma parseTimeRange_null_witness :
  parsePeriod (js "by appointment") = None /\
  exists rs, parseTimeRange (Some splitShiftText) = Some rs /\
             In (mkRange 1020 1320 false) rs /\
             rs = [mkRange 660 900 false; mkRange 1020 1320 false].
Proof.
  split; [reflexivity|].
  destruct (proj1 (proj2 (proj2 (parseTimeRange_null (Some splitShiftText))))
              splitShiftText (js "5:00 " ++ enDash ++ js " 10:00 PM")
              (mkRange 1020 1320 false))
    as (rs & P & Hin).
  - reflexivity.
  - discriminate.
  - reflexivity.
  - vm_compute. right. right. left. reflexivity.
  - reflexivity.
  - exists rs. split; [exact P|]. split; [exact Hin|].
    destruct (proj2 (proj2 (proj2 (parseTimeRange_null (Some splitShiftText))))
                splitShiftText rs eq_refl eq_refl P) as [_ D].
    apply (D [js "11:00 AM " ++ enDash ++ js " 3:00 PM"]
             (js "by appointment")
             [js "5:00 " ++ enDash ++ js " 10:00 PM"]); reflexivity.
Defined.

(** ** The ranges and minutes that reach [checkTimeRange] *)

(** In [getOpenStatus] the current minute of a valid date is a minute of
    the day, and the ranges that the parser builds have non-negative
    bounds; so a result that reports [minutesUntilClose] reports a
    positive one. *)
Lemma currentMinutesOf_bounds date :
  validDate date -> 0 <= currentMinutesOf date < 1440.
Proof. unfold validDate, currentMinutesOf. lia. Qed.

Lemma parseTime_nonneg s isEndTime startMinutes v :
  parseTime s isEndTime startMinutes = Some v -> 0 <= v.
Proof.
  destruct (matchTime (trim s)) as [[[g1 g2] g3]|] eqn:M.
  - destruct (matchTime_groups _ M) as (Hh & Hm & Hg).
    destruct g3 as [g|].
    + destruct (isMeridiem_upper _ (Hg g eq_refl)) as [U|U].
      * rewrite (parseTime_AM _ _ _ M U). intros E. injection E as <-.
        zbool; lia.
      * rewrite (parseTime_PM _ _ _ M U). intros E. injection E as <-.
        zbool; lia.
    + rewrite (parseTime_no_meridiem _ _ _ M). intros E. injection E as <-.
      assert (0 <= inferHour (parseInt10 g1) (parseInt10 g2)
                     isEndTime startMinutes).
      { unfold inferHour. destruct isEndTime, startMinutes;
          repeat match goal with
                 | |- context [if ?b then _ else _] => destruct b
                 end; lia. }
      nia.
  - unfold parseTime. rewrite M. destruct (isEmpty s); discriminate.
Qed.

Lemma parsePeriod_nonneg period r :
  parsePeriod period = Some r -> 0 <= start r /\ 0 <= end_ r /\ is24h r = false.
Proof.
  unfold parsePeriod.
  destruct (splitDash period) as [|p0 [|p1 [|p2 ps]]]; try discriminate.
  destruct (parseTime p0 false None) as [s|] eqn:S; [|discriminate].
  destruct (parseTime p1 true (Some s)) as [e|] eqn:E; [|discriminate].
  intros H. injection H as <-. simpl.
  apply parseTime_nonneg in S, E. auto.
Qed.

Lemma parseTimeRange_nonneg input rs :
  parseTimeRange input = Some rs ->
  Forall (fun r => 0 <= start r /\ 0 <= end_ r) rs.
Proof.
  unfold parseTimeRange. destruct input as [s|]; [|discriminate].
  destruct (isEmpty s || str_eqb s (js "Closed")); [discriminate|].
  destruct (includes s (js "Open 24 hours")).
  - intros H. injection H as <-. repeat constructor; simpl; lia.
  - cbv zeta. rewrite fold_pushPeriod. simpl app.
    destruct (0 <? length (parsedPeriods (periodsOf s)))%nat; [|discriminate].
    intros H. injection H as <-.
    apply Forall_forall. intros r Hr.
    apply parsedPeriods_In in Hr. destruct Hr as (p & _ & Hp).
    apply parsePeriod_nonneg in Hp. tauto.
Qed.

(** ** C8 and C10: the status object *)

Lemma find_none_all (f : option jsstring -> bool) hs :
  (forall h, In h hs -> f h = false) -> find f hs = None.
Proof.
  induction hs as [|h hs IH]; simpl; intros H; [reflexivity|].
  rewrite (H h (or_introl eq_refl)). apply IH.
  intros h' Hh. apply H. right. exact Hh.
Qed.

Lemma scanRanges_fields rs currentMinutes todayStr result :
  scanRanges rs currentMinutes todayStr = Some result ->
  isOpen result = true /\
  todayHours result = Some todayStr /\
  (status result = StatusOpen \/ status result = StatusClosingSoon) /\
  (isClosingSoon result = true <-> status result = StatusClosingSoon).
Proof.
  induction rs as [|range rs IH]; simpl; [discriminate|].
  destruct (is24h range).
  - intros H. injection H as <-. simpl.
    repeat split; auto; discriminate.
  - destruct (fst (rangeState range currentMinutes)) eqn:F.
    + rewrite (checkTimeRange_some _ _ _ F).
      intros H. injection H as <-. cbn [isOpen todayHours status isClosingSoon].
      destruct ((snd (rangeState range currentMinutes) <=? CLOSING_SOON_MINUTES)
                && (snd (rangeState range currentMinutes) >? 0));
        repeat split; auto; discriminate.
    + rewrite (checkTimeRange_none _ _ _ F). exact IH.
Qed.

(** The outcomes of [getOpenStatus]. *)
Lemma getOpenStatus_cases hours date :
  (getOpenStatus hours date = unknownStatus /\
   (getTodayHours hours date = None \/
    exists today, getTodayHours hours date = Some today /\ ranges today = None))
  \/
  (exists today rs,
     getTodayHours hours date = Some today /\ ranges today = Some rs /\
     ((exists result,
         scanRanges rs (currentMinutesOf date) (timeStr today) = Some result /\
         getOpenStatus hours date = result) \/
      (scanRanges rs (currentMinutesOf date) (timeStr today) = None /\
       getOpenStatus hours date =
         mkStatus false false None None StatusClosed
           (Some (findNextOpenTime hours date)) (Some (timeStr today))))).
Proof.
  unfold getOpenStatus.
  destruct (getTodayHours hours date) as [today|]; [|left; auto].
  destruct (ranges today) as [rs|] eqn:R; [|left; eauto].
  right. exists today, rs. split; [reflexivity|]. split; [exact R|].
  destruct (scanRanges rs (currentMinutesOf date) (timeStr today)); eauto.
Qed.

Lemma scanRanges_minutes_positive rs currentMinutes todayStr result m :
  0 <= currentMinutes < 1440 ->
  Forall (fun r => 0 <= start r /\ 0 <= end_ r) rs ->
  scanRanges rs currentMinutes todayStr = Some result ->
  minutesUntilClose result = Some m -> 0 < m.
Proof.
  intros Hc. induction 1 as [|range rs [_ He] _ IH]; simpl; [discriminate|].
  destruct (is24h range).
  - intros H. injection H as <-. discriminate.
  - destruct (fst (rangeState range currentMinutes)) eqn:F.
    + rewrite (checkTimeRange_some _ _ _ F).
      intros H. injection H as <-. cbn [minutesUntilClose].
      intros H. injection H as <-.
      destruct (Z.ltb_spec 0 (snd (rangeState range currentMinutes)));
        [assumption|].
      rewrite rangeState_past_close in F by assumption. discriminate.
    + rewrite (checkTimeRange_none _ _ _ F). exact IH.
Qed.

(** X10: on a valid date, the minutes until close that [getOpenStatus]
    reports are at least 1. *)
Lemma getOpenStatus_minutes_positive hours date m :
  validDate date ->
  minutesUntilClose (getOpenStatus hours date) = Some m -> 0 < m.
Proof.
  intros V.
  destruct (getOpenStatus_cases hours date)
    as [[-> _]|(td & rs & T & R & [(result & S & ->)|[_ ->]])];
    try discriminate.
  intros M.
  refine (@scanRanges_minutes_positive rs (currentMinutesOf date) (timeStr td)
            result m (currentMinutesOf_bounds V) _ S M).
  unfold getTodayHours in T.
  destruct hours as [hs|]; [|discriminate].
  destruct (length hs =? 0)%nat; [discriminate|].
  destruct (find _ hs) as [[entry|]|]; try discriminate.
  injection T as <-. cbn [ranges] in R.
  apply (@parseTimeRange_nonneg
           (Some (removeFirst (dayNameAt (getDay date) ++ js ": ") entry)) rs).
  exact R.
Qed.

(** C8: when the weekly hours are [null] or empty, have no entry for the
    weekday of the reference date, or have one whose text gives no
    ranges, [getOpenStatus] returns the status [unknown] with [isOpen]
    false and with none of [closesAt], [opensAt], [minutesUntilClose] and
    [todayHours]; every other outcome sets [todayHours]. *)
Theorem getOpenStatus_unknown (hours : WeeklyHours) (date : Date) :
  let today := dayNameAt (getDay date) in
  (hours = None \/ hours = Some [] \/
   (exists hs, hours = Some hs /\
      forall e, In (Some e) hs -> startsWith e (today ++ js ":") = false) \/
   (exists hs entry, hours = Some hs /\
      find (isEntryFor today) hs = Some (Some entry) /\
      parseTimeRange (Some (removeFirst (today ++ js ": ") entry)) = None) ->
   let result := getOpenStatus hours date in
   result = mkStatus false false None None StatusUnknown None None /\
   status result = StatusUnknown /\ isOpen result = false /\
   closesAt result = None /\ opensAt result = None /\
   minutesUntilClose result = None /\ todayHours result = None) /\
  (status (getOpenStatus hours date) <> StatusUnknown ->
   todayHours (getOpenStatus hours date) <> None).
Proof.
  intros today. split.
  - intros H.
    assert (U : getOpenStatus hours date = unknownStatus).
    { unfold getOpenStatus, getTodayHours. cbv zeta. fold today.
      destruct H as [->|[->|[(hs & -> & H)|(hs & entry & -> & F & P)]]];
        try reflexivity.
      - destruct (length hs =? 0)%nat; [reflexivity|].
        rewrite find_none_all; [reflexivity|].
        intros [e|] Hin; simpl; [|reflexivity].
        rewrite (H e Hin). apply andb_false_r.
      - destruct (length hs =? 0)%nat; [reflexivity|].
        rewrite F. cbn [ranges]. rewrite P. reflexivity. }
    simpl. rewrite U. repeat split.
  - destruct (getOpenStatus_cases hours date)
      as [[U _]|(td & rs & _ & _ & [(result & S & ->)|[_ ->]])].
    + rewrite U. intros H. exfalso. apply H. reflexivity.
    + intros _. destruct (scanRanges_fields _ _ _ S) as (_ & T & _).
      rewrite T. discriminate.
    + intros _. discriminate.
Qed.

Lemma getOpenStatus_unknown_witness :
  getOpenStatus (Some []) (mkDate 1 16 30) = unknownStatus /\
  getOpenStatus mondayOnly (mkDate 2 16 30) = unknownStatus /\
  getOpenStatus mondayOnly (mkDate 3 16 30) = unknownStatus /\
  todayHours (getOpenStatus mondayOnly (mkDate 1 16 30)) <> None.
Proof.
  split; [|split; [|split]].
  - refine (proj1 (proj1 (getOpenStatus_unknown (Some []) (mkDate 1 16 30)) _)).
    right. left. reflexivity.
  - refine (proj1 (proj1 (getOpenStatus_unknown mondayOnly (mkDate 2 16 30)) _)).
    right. right. right.
    exists [Some (js "Monday: 9:00 AM - 5:00 PM"); Some (js "Tuesday: Closed")],
           (js "Tuesday: Closed").
    split; [reflexivity|]. split; reflexivity.
  - refine (proj1 (proj1 (getOpenStatus_unknown mondayOnly (mkDate 3 16 30)) _)).
    right. right. left.
    exists [Some (js "Monday: 9:00 AM - 5:00 PM"); Some (js "Tuesday: Closed")].
    split; [reflexivity|].
    intros e [H|[H|[]]]; injection H as <-; reflexivity.
  - apply (proj2 (getOpenStatus_unknown mondayOnly (mkDate 1 16 30))).
    vm_compute. discriminate.
Defined.

(** C10: in the object that [getOpenStatus] returns, [isOpen] is true
    exactly when the status is [open] or [closing-soon], and
    [isClosingSoon] is true exactly when the status is [closing-soon]. *)
Theorem getOpenStatus_consistent (hours : WeeklyHours) (date : Date) :
  let result := getOpenStatus hours date in
  (isOpen result = true <->
   status result = StatusOpen \/ status result = StatusClosingSoon) /\
  (isClosingSoon result = true <-> status result = StatusClosingSoon).
Proof.
  simpl.
  destruct (getOpenStatus_cases hours date)
    as [[-> _]|(td & rs & _ & _ & [(result & S & ->)|[_ ->]])].
  - simpl. split; split; try discriminate. intros [H|H]; discriminate.
  - destruct (scanRanges_fields _ _ _ S) as (O & _ & St & C).
    split; [|exact C]. rewrite O. split; auto.
  - simpl. split; split; try discriminate. intros [H|H]; discriminate.
Qed.

(** ** C5: the next-opening search *)

Lemma getTodayHours_some_hours hours date today :
  getTodayHours hours date = Some today ->
  exists hs, hours = Some hs /\ (length hs =? 0)%nat = false.
Proof.
  unfold getTodayHours. destruct hours as [hs|]; [|discriminate].
  destruct (length hs =? 0)%nat eqn:L; [discriminate|]. eauto.
Qed.

Lemma rangesOn_cons_hours hours date r rs :
  rangesOn hours date = r :: rs ->
  exists hs, hours = Some hs /\ (length hs =? 0)%nat = false.
Proof.
  unfold rangesOn.
  destruct (getTodayHours hours date) as [today|] eqn:T; [|discriminate].
  intros _. exact (getTodayHours_some_hours _ _ T).
Qed.

Lemma findNextOpenTime_unfold hs date :
  (length hs =? 0)%nat = false ->
  findNextOpenTime (Some hs) date =
    match laterToday (rangesOn (Some hs) date) (currentMinutesOf date) with
    | Some label => Some label
    | None => followingDays (Some hs) date 1 7
    end.
Proof.
  intros L. unfold findNextOpenTime, rangesOn. rewrite L.
  destruct (getTodayHours (Some hs) date) as [today|]; [|reflexivity].
  destruct (ranges today); reflexivity.
Qed.

Lemma laterToday_first before r after currentMinutes :
  start r > currentMinutes ->
  (forall r', In r' before -> start r' <= currentMinutes) ->
  laterToday (before ++ r :: after) currentMinutes
  = Some (js "today at " ++ formatMinutesAsTime (start r)).
Proof.
  intros Hr. induction before as [|b before IH]; intros Hb; simpl.
  - destruct (Z.gtb_spec (start r) currentMinutes); [reflexivity | lia].
  - pose proof (Hb b (or_introl eq_refl)).
    destruct (Z.gtb_spec (start b) currentMinutes); [lia|].
    apply IH. intros r' Hr'. apply Hb. right. exact Hr'.
Qed.

Lemma laterToday_none rs currentMinutes :
  (forall r, In r rs -> start r <= currentMinutes) ->
  laterToday rs currentMinutes = None.
Proof.
  induction rs as [|r rs IH]; intros H; simpl; [reflexivity|].
  pose proof (H r (or_introl eq_refl)).
  destruct (Z.gtb_spec (start r) currentMinutes); [lia|].
  apply IH. intros r' Hr'. apply H. right. exact Hr'.
Qed.

Lemma checkDay_rangesOn hours date i :
  checkDay hours date i =
    match rangesOn hours (addDays date i) with
    | r0 :: _ =>
        Some (dayLabel date i ++ js " at " ++ formatMinutesAsTime (start r0))
    | [] => None
    end.
Proof.
  unfold checkDay, rangesOn, dayLabel.
  destruct (getTodayHours hours (addDays date i)) as [dayData|]; [|reflexivity].
  destruct (ranges dayData) as [[|r0 rs]|]; reflexivity.
Qed.

Lemma followingDays_first hours date n : forall k i label,
  (k <= i < k + n)%nat ->
  (forall j, (k <= j < i)%nat -> checkDay hours date j = None) ->
  checkDay hours date i = Some label ->
  followingDays hours date k n = Some label.
Proof.
  induction n as [|n IH]; intros k i label Hi Hj Hc; [lia|]. simpl.
  destruct (Nat.eq_dec k i) as [->|Hne].
  - rewrite Hc. reflexivity.
  - rewrite (Hj k) by lia.
    apply (IH (S k) i label); [lia | | exact Hc].
    intros j Hjr. apply Hj. lia.
Qed.

Lemma followingDays_none hours date n : forall k,
  (forall j, (k <= j < k + n)%nat -> checkDay hours date j = None) ->
  followingDays hours date k n = None.
Proof.
  induction n as [|n IH]; intros k Hj; [reflexivity|]. simpl.
  rewrite (Hj k) by lia. apply IH. intros j Hjr. apply Hj. lia.
Qed.

Lemma getTodayHours_weekday hours d1 d2 :
  getDay d1 = getDay d2 -> getTodayHours hours d1 = getTodayHours hours d2.
Proof. intros E. unfold getTodayHours. rewrite E. reflexivity. Qed.

(** C5, as the specification words it, does not hold: on a Monday at
    9:00 AM, with the evening shift listed before the lunch shift, the
    search answers "today at 5:00 PM", although the earliest later start
    of the day is 11:00 AM. *)
Lemma findNextOpenTime_not_earliest :
  ~ (forall hours date m,
       validDate date ->
       earliestLaterStart (rangesOn hours date) (currentMinutesOf date) m ->
       findNextOpenTime hours date
       = Some (js "today at " ++ formatMinutesAsTime m)).
Proof.
  intros H.
  specialize (H eveningBeforeLunch (mkDate 1 9 0) 660).
  assert (V : validDate (mkDate 1 9 0)) by (unfold validDate; simpl; lia).
  assert (E : earliestLaterStart (rangesOn eveningBeforeLunch (mkDate 1 9 0))
                (currentMinutesOf (mkDate 1 9 0)) 660).
  { change (rangesOn eveningBeforeLunch (mkDate 1 9 0))
      with [mkRange 1020 1320 false; mkRange 660 900 false].
    change (currentMinutesOf (mkDate 1 9 0)) with 540.
    split; [|split].
    - exists (mkRange 660 900 false). split; [right; left|]; reflexivity.
    - lia.
    - intros r [<-|[<-|[]]]; simpl; lia. }
  specialize (H V E). vm_compute in H. discriminate.
Qed.

Lemma first_later_is_earliest before r after currentMinutes :
  ascendingStarts (before ++ r :: after) ->
  start r > currentMinutes ->
  (forall r', In r' before -> start r' <= currentMinutes) ->
  earliestLaterStart (before ++ r :: after) currentMinutes (start r).
Proof.
  intros S Hr Hb.
  assert (A : Forall (fun b => start r <= start b) after).
  { clear Hb. induction before as [|b before IH]; simpl in S;
      apply StronglySorted_inv in S; destruct S as [S F]; auto. }
  split; [|split].
  - exists r. split; [apply in_elt | reflexivity].
  - exact Hr.
  - intros r' Hin Hl. apply in_app_or in Hin.
    destruct Hin as [Hin|[<-|Hin]].
    + specialize (Hb r' Hin). lia.
    + lia.
    + rewrite Forall_forall in A. apply A. exact Hin.
Qed.

(** C5 (amended): when a range of today starts later than now,
    [findNextOpenTime] returns "today at" and the start of the first such
    range in the order of the text, which is the earliest such start when
    today's ranges are listed in ascending order; otherwise it returns, for the first of
    the days +1 to +7 that has a range, its label ("tomorrow" for +1, the
    name of the weekday otherwise), " at " and the start of its first
    range; and it returns [null] when none of the days +1 to +7 has a
    range. *)
Theorem findNextOpenTime_search (hours : WeeklyHours) (date : Date) :
  let now := currentMinutesOf date in
  (forall before r after,
     rangesOn hours date = before ++ r :: after ->
     start r > now ->
     (forall r', In r' before -> start r' <= now) ->
     findNextOpenTime hours date
     = Some (js "today at " ++ formatMinutesAsTime (start r)) /\
     (ascendingStarts (rangesOn hours date) ->
      earliestLaterStart (rangesOn hours date) now (start r))) /\
  (forall i r rest,
     (forall r', In r' (rangesOn hours date) -> start r' <= now) ->
     (1 <= i <= 7)%nat ->
     (forall j, (1 <= j < i)%nat -> rangesOn hours (addDays date j) = []) ->
     rangesOn hours (addDays date i) = r :: rest ->
     findNextOpenTime hours date
     = Some ((if (i =? 1)%nat then js "tomorrow"
              else dayNameAt ((getDay date + i) mod 7))
             ++ js " at " ++ formatMinutesAsTime (start r))) /\
  ((getDay date < 7)%nat ->
   (forall i, (1 <= i <= 7)%nat -> rangesOn hours (addDays date i) = []) ->
   findNextOpenTime hours date = None).
Proof.
  intros now. split; [|split].
  - intros before r after R Hr Hb.
    destruct (rangesOn_cons_hours hours date
                (r := hd r before) (rs := tl (before ++ r :: after)))
      as (hs & -> & L).
    { rewrite R. destruct before; reflexivity. }
    split.
    + rewrite findNextOpenTime_unfold by exact L. rewrite R.
      fold now. rewrite laterToday_first by assumption. reflexivity.
    + rewrite R. intros S. apply first_later_is_earliest; assumption.
  - intros i r rest Ht Hi Hj Ri.
    destruct (rangesOn_cons_hours _ _ Ri) as (hs & -> & L).
    rewrite findNextOpenTime_unfold by exact L.
    fold now. rewrite laterToday_none by exact Ht.
    apply (@followingDays_first (Some hs) date 7 1 i); [lia | |].
    + intros j Hjr. rewrite checkDay_rangesOn, (Hj j Hjr). reflexivity.
    + rewrite checkDay_rangesOn, Ri. reflexivity.
  - intros Hd Hn.
    destruct hours as [hs|]; [|reflexivity].
    destruct (length hs =? 0)%nat eqn:L.
    { unfold findNextOpenTime. rewrite L. reflexivity. }
    rewrite findNextOpenTime_unfold by exact L.
    assert (T : rangesOn (Some hs) date = []).
    { rewrite <- (Hn 7%nat) by lia. unfold rangesOn.
      rewrite (@getTodayHours_weekday (Some hs) date (addDays date 7)).
      - reflexivity.
      - unfold addDays. cbn [getDay]. revert Hd.
        generalize (getDay date) as d. intros d Hd.
        do 7 (destruct d as [|d]; [reflexivity|]). lia. }
    rewrite T. cbn [laterToday].
    apply followingDays_none. intros j Hj.
    rewrite checkDay_rangesOn, Hn by lia. reflexivity.
Qed.

Ltac each_day j :=
  do 8 (destruct j as [|j]; [try lia; try reflexivity|]); lia.

Lemma findNextOpenTime_search_witness :
  findNextOpenTime eveningBeforeLunch (mkDate 1 9 0)
    = Some (js "today at 5:00 PM") /\
  (findNextOpenTime lunchAndDinner (mkDate 1 16 0)
     = Some (js "today at 5:00 PM") /\
   earliestLaterStart (rangesOn lunchAndDinner (mkDate 1 16 0)) 960 1020) /\
  findNextOpenTime mondayOnly (mkDate 0 12 0)
    = Some (js "tomorrow at 9:00 AM") /\
  findNextOpenTime mondayOnly (mkDate 1 17 30)
    = Some (js "Monday at 9:00 AM") /\
  findNextOpenTime closedAllWeek (mkDate 1 17 30) = None.
Proof.
  split; [|split; [|split; [|split]]].
  - apply (proj1 (findNextOpenTime_search eveningBeforeLunch (mkDate 1 9 0))
             [] (mkRange 1020 1320 false) [mkRange 660 900 false]).
    + reflexivity.
    + vm_compute. reflexivity.
    + intros r' [].
  - destruct (proj1 (findNextOpenTime_search lunchAndDinner (mkDate 1 16 0))
                [mkRange 660 900 false] (mkRange 1020 1320 false) [])
      as [F E].
    + reflexivity.
    + vm_compute. reflexivity.
    + intros r' [<-|[]]. vm_compute. discriminate.
    + split; [exact F|]. apply E.
      change (rangesOn lunchAndDinner (mkDate 1 16 0))
        with [mkRange 660 900 false; mkRange 1020 1320 false].
      repeat constructor. simpl. lia.
  - apply (proj1 (proj2 (findNextOpenTime_search mondayOnly (mkDate 0 12 0)))
             1%nat (mkRange 540 1020 false) []).
    + intros r' [].
    + lia.
    + intros j Hj. lia.
    + reflexivity.
  - apply (proj1 (proj2 (findNextOpenTime_search mondayOnly (mkDate 1 17 30)))
             7%nat (mkRange 540 1020 false) []).
    + intros r' [<-|[]]. vm_compute. discriminate.
    + lia.
    + intros j Hj. each_day j.
    + reflexivity.
  - apply (proj2 (proj2 (findNextOpenTime_search closedAllWeek (mkDate 1 17 30)))).
    + simpl. lia.
    + intros i Hi. each_day i.
Defined.

(** ** C9: parsing and formatting a clock time *)

Lemma roundTrips_all :
  forallb (fun h =>
    forallb (fun m => roundTrips h m AM && roundTrips h m PM) clockMins)
    clockHours = true.
Proof. vm_compute. reflexivity. Qed.

Lemma roundTrips_in_range h m p :
  1 <= h <= 12 -> 0 <= m <= 59 -> roundTrips h m p = true.
Proof.
  intros Hh Hm.
  assert (Ih : In h clockHours).
  { unfold clockHours. rewrite <- (Z2Nat.id h) by lia.
    apply in_map, in_seq. lia. }
  assert (Im : In m clockMins).
  { unfold clockMins. rewrite <- (Z2Nat.id m) by lia.
    apply in_map, in_seq. lia. }
  pose proof roundTrips_all as A.
  rewrite forallb_forall in A. specialize (A h Ih).
  rewrite forallb_forall in A. specialize (A m Im).
  apply andb_true_iff in A. destruct p; tauto.
Qed.

(** With a meridiem, the context of the token plays no part. *)
Lemma parseTime_meridiem_context s isEndTime startMinutes :
  hasMeridiem s = true ->
  parseTime s isEndTime startMinutes = parseTime s false None.
Proof.
  unfold hasMeridiem.
  destruct (matchTime (trim s)) as [[[g1 g2] [g|]]|] eqn:M; try discriminate.
  intros _. rewrite !(parseTime_matched _ _ _ M). reflexivity.
Qed.

(** C9: for every token "H:MM AM" or "H:MM PM" with an hour from 1 to 12
    and a minute from 00 to 59, [parseTime] gives the minute of the day
    that the token denotes (0 for 12:00 AM, 720 for 12:00 PM), and
    [formatMinutesAsTime] gives the token back. *)
Theorem parseTime_formatMinutesAsTime h m p isEndTime startMinutes :
  1 <= h <= 12 -> 0 <= m <= 59 ->
  exists v,
    parseTime (clockToken h m p) isEndTime startMinutes = Some v /\
    v = clockMinutes h m p /\
    formatMinutesAsTime v = clockToken h m p.
Proof.
  intros Hh Hm.
  pose proof (roundTrips_in_range p Hh Hm) as R.
  unfold roundTrips in R.
  apply andb_true_iff in R. destruct R as [M R].
  rewrite (@parseTime_meridiem_context (clockToken h m p) isEndTime startMinutes M).
  destruct (parseTime (clockToken h m p) false None) as [v|]; [|discriminate].
  apply andb_true_iff in R. destruct R as [V F].
  exists v. split; [reflexivity|].
  split; [apply Z.eqb_eq; exact V | apply str_eqb_eq; exact F].
Qed.

Lemma parseTime_formatMinutesAsTime_witness :
  (parseTime (js "12:00 AM") false None = Some 0 /\
   formatMinutesAsTime 0 = js "12:00 AM") /\
  (parseTime (js "12:00 PM") true (Some 540) = Some 720 /\
   formatMinutesAsTime 720 = js "12:00 PM").
Proof.
  split.
  - destruct (@parseTime_formatMinutesAsTime 12 0 AM false None)
      as (v & P & V & F); [lia | lia |].
    change (clockMinutes 12 0 AM) with 0 in V. subst v.
    split; [exact P | exact F].
  - destruct (@parseTime_formatMinutesAsTime 12 0 PM true (Some 540))
      as (v & P & V & F); [lia | lia |].
    change (clockMinutes 12 0 PM) with 720 in V. subst v.
    split; [exact P | exact F].
Defined.

(** * Further properties of the hours engine *)

(** ** The formatter works modulo a day *)

Lemma format_fields_mod v :
  0 <= v ->
  Z.rem ((v mod 1440) / 60) 24 = Z.rem (v / 60) 24 /\
  Z.rem (v mod 1440) 60 = Z.rem v 60.
Proof.
  intros Hv.
  assert (0 <= v mod 1440 < 1440) by (apply Z.mod_pos_bound; lia).
  rewrite !Z.rem_mod_nonneg by
    (try lia; apply Z.div_pos; lia).
  split.
  - Z.to_euclidean_division_equations. lia.
  - Z.to_euclidean_division_equations. lia.
Qed.

Lemma formatsBack_all : forallb formatsBack dayMinutes = true.
Proof. vm_compute. reflexivity. Qed.

Lemma formatsBack_day v : 0 <= v < 1440 -> formatsBack v = true.
Proof.
  intros Hv. pose proof formatsBack_all as A.
  rewrite forallb_forall in A. apply A.
  unfold dayMinutes. rewrite <- (Z2Nat.id v) by lia.
  apply in_map, in_seq. lia.
Qed.

(** X1: for a number of minutes from 0 to [Number.MAX_SAFE_INTEGER],
    [formatMinutesAsTime] only depends on the minute of the day
    ([v mod 1440]), and its result is always a display "H:MM AM" or
    "H:MM PM" with an hour from 1 to 12 and the minute [v % 60] on two
    digits. *)
Theorem formatMinutesAsTime_display v :
  0 <= v <= MAX_SAFE_INTEGER ->
  formatMinutesAsTime v = formatMinutesAsTime (v mod 1440) /\
  exists h p, 1 <= h <= 12 /\
    formatMinutesAsTime v = clockToken h (Z.rem v 60) p.
Proof.
  intros [Hv _].
  assert (P : formatMinutesAsTime v = formatMinutesAsTime (v mod 1440)).
  { unfold formatMinutesAsTime.
    destruct (format_fields_mod Hv) as [-> ->]. reflexivity. }
  split; [exact P|].
  assert (D : 0 <= v mod 1440 < 1440) by (apply Z.mod_pos_bound; lia).
  pose proof (formatsBack_day D) as F. unfold formatsBack in F.
  apply andb_true_iff in F. destruct F as [_ F].
  apply existsb_exists in F. destruct F as (h & Hh & F).
  apply existsb_exists in F. destruct F as (p & _ & F).
  apply str_eqb_eq in F.
  exists h, p. split.
  - unfold clockHours in Hh. apply in_map_iff in Hh.
    destruct Hh as (n & <- & Hn). apply in_seq in Hn. lia.
  - rewrite P, F. rewrite (proj2 (format_fields_mod Hv)). reflexivity.
Qed.

Lemma formatMinutesAsTime_display_witness :
  formatMinutesAsTime 1500 = formatMinutesAsTime 60 /\
  exists h p, 1 <= h <= 12 /\ formatMinutesAsTime 1500 = clockToken h 0 p.
Proof.
  apply (@formatMinutesAsTime_display 1500). unfold MAX_SAFE_INTEGER. lia.
Defined.

(** X2: what [formatMinutesAsTime] writes, [parseTime] reads back, in
    any context: for [v] from 0 to [Number.MAX_SAFE_INTEGER] the result
    is the minute of the day [v mod 1440]. *)
Theorem parseTime_of_formatMinutesAsTime v isEndTime startMinutes :
  0 <= v <= MAX_SAFE_INTEGER ->
  parseTime (formatMinutesAsTime v) isEndTime startMinutes
  = Some (v mod 1440).
Proof.
  intros [Hv _].
  assert (P : formatMinutesAsTime v = formatMinutesAsTime (v mod 1440)).
  { unfold formatMinutesAsTime.
    destruct (format_fields_mod Hv) as [-> ->]. reflexivity. }
  assert (D : 0 <= v mod 1440 < 1440) by (apply Z.mod_pos_bound; lia).
  pose proof (formatsBack_day D) as F. unfold formatsBack in F.
  apply andb_true_iff in F. destruct F as [F _].
  apply andb_true_iff in F. destruct F as [M F].
  rewrite P.
  rewrite (@parseTime_meridiem_context _ isEndTime startMinutes M).
  destruct (parseTime (formatMinutesAsTime (v mod 1440)) false None) as [w|];
    [|discriminate].
  apply Z.eqb_eq in F. subst w. reflexivity.
Qed.

Lemma parseTime_of_formatMinutesAsTime_witness :
  parseTime (formatMinutesAsTime 1500) true (Some 1320) = Some 60.
Proof.
  apply (@parseTime_of_formatMinutesAsTime 1500 true (Some 1320)).
  unfold MAX_SAFE_INTEGER. lia.
Defined.

(** ** White space around a time token *)

Lemma dropWhile_app p a b :
  dropWhile p (a ++ b) =
    match dropWhile p a with
    | [] => dropWhile p b
    | t => t ++ b
    end.
Proof.
  induction a as [|x a IH]; simpl; [destruct (dropWhile p b); reflexivity|].
  destruct (p x); [exact IH | reflexivity].
Qed.

Lemma dropWhile_all p a : forallb p a = true -> dropWhile p a = [].
Proof.
  induction a as [|x a IH]; simpl; [reflexivity|].
  destruct (p x); [exact IH | discriminate].
Qed.

Lemma forallb_reversed (p : N -> bool) l :
  forallb p (List.rev l) = forallb p l.
Proof.
  induction l as [|x l IH]; simpl; [reflexivity|].
  rewrite forallb_app, IH. simpl. rewrite andb_true_r. apply andb_comm.
Qed.

Lemma trimEnd_app_space t post :
  forallb isSpace post = true -> trimEnd (t ++ post) = trimEnd t.
Proof.
  intros H. unfold trimEnd. rewrite rev_app_distr, dropWhile_app.
  rewrite dropWhile_all by (rewrite forallb_reversed; exact H).
  reflexivity.
Qed.

Lemma trim_padding pre s post :
  forallb isSpace pre = true -> forallb isSpace post = true ->
  trim (pre ++ s ++ post) = trim s.
Proof.
  intros Hpre Hpost. unfold trim, trimStart.
  rewrite dropWhile_app, (dropWhile_all _ _ Hpre), dropWhile_app.
  destruct (dropWhile isSpace s) as [|x t] eqn:E.
  - rewrite (dropWhile_all _ _ Hpost). reflexivity.
  - apply trimEnd_app_space. exact Hpost.
Qed.

(** X3: white space before and after a time text plays no part:
    [parseTime] of the padded text is [parseTime] of the text. *)
Theorem parseTime_padding pre s post isEndTime startMinutes :
  forallb isSpace pre = true -> forallb isSpace post = true ->
  parseTime (pre ++ s ++ post) isEndTime startMinutes
  = parseTime s isEndTime startMinutes.
Proof.
  intros Hpre Hpost. unfold parseTime.
  rewrite (trim_padding _ _ _ Hpre Hpost).
  destruct s as [|c s].
  - simpl. destruct (isEmpty (pre ++ post)); reflexivity.
  - destruct pre; reflexivity.
Qed.

Lemma parseTime_padding_witness :
  parseTime ([32; 160]%N ++ js "9:30 pm" ++ [8239; 9]%N) false None
  = parseTime (js "9:30 pm") false None.
Proof.
  apply parseTime_padding; reflexivity.
Defined.

(** ** The inference of the half of the day *)

(** X4: [inferHour] leaves an hour of 12 or more as it is and otherwise
    adds 12 or nothing; for an end time it never gives a time before a
    start in the morning, and after a start at noon or later it moves
    every hour below 12 to the afternoon. *)
Theorem inferHour_end_time hours minutes startMinutes :
  0 <= hours -> 0 <= minutes -> 0 <= startMinutes ->
  let h := inferHour hours minutes true (Some startMinutes) in
  (h = hours \/ (hours < 12 /\ h = hours + 12)) /\
  (startMinutes < 720 -> startMinutes <= h * 60 + minutes) /\
  (720 <= startMinutes -> hours < 12 -> h = hours + 12).
Proof.
  intros Hh Hm Hs. cbv zeta. unfold inferHour.
  assert (Q : startMinutes < 720 <-> startMinutes / 60 < 12).
  { Z.to_euclidean_division_equations. lia. }
  rewrite (Z.geb_leb (startMinutes / 60) 12).
  destruct (Z.ltb_spec hours 12), (Z.leb_spec 12 (startMinutes / 60)),
    (Z.ltb_spec (hours * 60 + minutes) startMinutes);
    cbn [andb]; repeat split; intros; try lia.
Qed.

Lemma inferHour_end_time_witness :
  540 <= inferHour 5 0 true (Some 540) * 60 + 0 /\
  inferHour 9 0 true (Some 720) = 21.
Proof.
  pose proof (@inferHour_end_time 5 0 540) as A.
  pose proof (@inferHour_end_time 9 0 720) as B.
  split.
  - apply A; lia.
  - apply B; lia.
Defined.

(** ** What the range parser returns *)

Lemma parsedPeriods_length periods :
  (length (parsedPeriods periods) <= length periods)%nat.
Proof.
  induction periods as [|p ps IH]; simpl; [lia|].
  destruct (parsePeriod p); simpl; lia.
Qed.

(** X5: in a result of [parseTimeRange] every bound is non-negative; a
    range with [is24h] set is the range from 0 to 1440 and is the only
    range of the result; and when no range has [is24h] set, there are at
    most as many ranges as periods between the commas of the text. *)
Theorem parseTimeRange_ranges s rs :
  parseTimeRange (Some s) = Some rs ->
  (forall r, In r rs -> 0 <= start r /\ 0 <= end_ r) /\
  (forall r, In r rs -> is24h r = true -> rs = [mkRange 0 1440 true]) /\
  ((forall r, In r rs -> is24h r = false) ->
   (0 < length rs <= length (splitOn comma s))%nat).
Proof.
  unfold parseTimeRange.
  destruct (isEmpty s || str_eqb s (js "Closed")); [discriminate|].
  destruct (includes s (js "Open 24 hours")).
  - intros H. injection H as <-. split; [|split].
    + intros r [<-|[]]. simpl. lia.
    + reflexivity.
    + intros H. specialize (H range24h (or_introl eq_refl)). discriminate.
  - cbv zeta. rewrite fold_pushPeriod. simpl app.
    destruct (Nat.ltb_spec 0 (length (parsedPeriods (periodsOf s))));
      [|discriminate].
    intros E. injection E as <-.
    assert (P : forall r, In r (parsedPeriods (periodsOf s)) ->
                0 <= start r /\ 0 <= end_ r /\ is24h r = false).
    { intros r Hr. apply parsedPeriods_In in Hr.
      destruct Hr as (p & _ & Hp). exact (parsePeriod_nonneg _ Hp). }
    split; [|split].
    + intros r Hr. specialize (P r Hr). tauto.
    + intros r Hr H24. specialize (P r Hr). destruct P as (_ & _ & P).
      congruence.
    + intros _. split; [assumption|].
      pose proof (parsedPeriods_length (periodsOf s)) as L.
      unfold periodsOf in L. rewrite length_map in L. exact L.
Qed.

Lemma parseTimeRange_ranges_witness :
  parseTimeRange (Some splitShiftText)
  = Some [mkRange 660 900 false; mkRange 1020 1320 false] /\
  (0 < 2 <= length (splitOn comma splitShiftText))%nat.
Proof.
  split; [reflexivity|].
  apply (proj2 (proj2 (@parseTimeRange_ranges splitShiftText
                  [mkRange 660 900 false; mkRange 1020 1320 false] eq_refl))).
  intros r [<-|[<-|[]]]; reflexivity.
Defined.

(** ** Which range decides the status *)

Lemma rangeState_covers r currentMinutes :
  is24h r = false ->
  (fst (rangeState r currentMinutes) = true <-> covers r currentMinutes).
Proof.
  intros H24. unfold covers, rangeState. rewrite H24.
  rewrite (Z.geb_leb currentMinutes (start r)).
  destruct (Z.ltb_spec (end_ r) (start r)),
    (Z.leb_spec (start r) currentMinutes),
    (Z.ltb_spec currentMinutes (end_ r)); cbn [fst orb andb];
    split; intros; try reflexivity; try discriminate; try lia;
    repeat match goal with
           | H : _ \/ _ |- _ => destruct H
           | H : _ /\ _ |- _ => destruct H
           end; try discriminate; lia.
Qed.

Lemma scanRanges_skip before rs currentMinutes todayStr :
  (forall b, In b before -> ~ covers b currentMinutes) ->
  scanRanges (before ++ rs) currentMinutes todayStr
  = scanRanges rs currentMinutes todayStr.
Proof.
  induction before as [|b before IH]; intros H; [reflexivity|].
  simpl.
  assert (Hb : ~ covers b currentMinutes) by (apply H; left; reflexivity).
  destruct (is24h b) eqn:B.
  - exfalso. apply Hb. left. exact B.
  - rewrite checkTimeRange_none.
    + apply IH. intros b' Hb'. apply H. right. exact Hb'.
    + destruct (fst (rangeState b currentMinutes)) eqn:F; [|reflexivity].
      exfalso. apply Hb. apply rangeState_covers; assumption.
Qed.

Lemma scanRanges_some_covers rs currentMinutes todayStr result :
  scanRanges rs currentMinutes todayStr = Some result ->
  exists r, In r rs /\ covers r currentMinutes.
Proof.
  induction rs as [|r rs IH]; simpl; [discriminate|].
  destruct (is24h r) eqn:B.
  - intros _. exists r. split; [left; reflexivity | left; exact B].
  - destruct (fst (rangeState r currentMinutes)) eqn:F.
    + intros _. exists r. split; [left; reflexivity|].
      apply rangeState_covers; assumption.
    + rewrite (checkTimeRange_none _ _ _ F). intros H.
      destruct (IH H) as (r' & Hin & Hc). exists r'. auto.
Qed.

Lemma scanRanges_none_covers rs currentMinutes todayStr :
  scanRanges rs currentMinutes todayStr = None ->
  forall r, In r rs -> ~ covers r currentMinutes.
Proof.
  induction rs as [|r rs IH]; simpl; [intros _ r []|].
  destruct (is24h r) eqn:B; [discriminate|].
  destruct (fst (rangeState r currentMinutes)) eqn:F.
  - rewrite (checkTimeRange_some _ _ _ F). discriminate.
  - rewrite (checkTimeRange_none _ _ _ F). intros H r' [<-|Hin].
    + intros C. apply rangeState_covers in C; congruence.
    + apply IH; assumption.
Qed.

Lemma rangesOn_ranges hours date today rs :
  getTodayHours hours date = Some today -> ranges today = Some rs ->
  rangesOn hours date = rs.
Proof. intros T R. unfold rangesOn. rewrite T, R. reflexivity. Qed.

Lemma rangesOn_cons_today hours date r rs :
  rangesOn hours date = r :: rs ->
  exists today,
    getTodayHours hours date = Some today /\ ranges today = Some (r :: rs).
Proof.
  unfold rangesOn.
  destruct (getTodayHours hours date) as [today|]; [|discriminate].
  destruct (ranges today) as [rs'|] eqn:R; [|discriminate].
  intros ->. eauto.
Qed.

(** X6: [getOpenStatus] reports open exactly when one of the ranges of
    today's entry covers the current minute (a 24-hour range covers every
    minute); the entries of the other days, yesterday's included, play no
    part. *)
Theorem getOpenStatus_open_iff (hours : WeeklyHours) (date : Date) :
  isOpen (getOpenStatus hours date) = true <->
  exists r, In r (rangesOn hours date) /\ covers r (currentMinutesOf date).
Proof.
  destruct (getOpenStatus_cases hours date)
    as [[-> U]|(td & rs & T & R & [(result & S & ->)|[S ->]])].
  - simpl. split; [discriminate|]. intros (r & Hin & _).
    unfold rangesOn in Hin.
    destruct U as [U|(td & U & R)]; rewrite U in Hin;
      [|rewrite R in Hin]; contradiction.
  - rewrite (rangesOn_ranges _ _ T R).
    destruct (scanRanges_fields _ _ _ S) as (O & _).
    rewrite O. split; [intros _ | reflexivity].
    exact (scanRanges_some_covers _ _ _ S).
  - rewrite (rangesOn_ranges _ _ T R). simpl.
    split; [discriminate|]. intros (r & Hin & C).
    exfalso. eapply scanRanges_none_covers; eassumption.
Qed.

Lemma getOpenStatus_open_iff_witness :
  isOpen (getOpenStatus overlappingShifts (mkDate 1 22 0)) = true.
Proof.
  apply (proj2 (getOpenStatus_open_iff overlappingShifts (mkDate 1 22 0))).
  exists (mkRange 960 1380 false). split.
  - right. left. reflexivity.
  - right. left. vm_compute. repeat split; discriminate.
Defined.

(** X7: the first range of today, in the order of the text, that covers
    the current minute decides the result: the minutes until close and
    the closing time are those of that range, whatever the ranges after
    it. *)
Theorem getOpenStatus_first_match hours date before r after :
  let now := currentMinutesOf date in
  rangesOn hours date = before ++ r :: after ->
  (forall b, In b before -> ~ covers b now) ->
  covers r now -> is24h r = false ->
  let result := getOpenStatus hours date in
  isOpen result = true /\
  minutesUntilClose result =
    Some (if (end_ r <? start r) && (start r <=? now)
          then (1440 - now) + end_ r else end_ r - now) /\
  closesAt result = Some (formatMinutesAsTime (Z.rem (end_ r) 1440)).
Proof.
  intros now Hr Hb Hc H24.
  assert (E : exists today,
             getTodayHours hours date = Some today /\
             ranges today = Some (before ++ r :: after)).
  { destruct before as [|b before];
      apply rangesOn_cons_today in Hr; exact Hr. }
  destruct E as (today & T & R).
  assert (F : fst (rangeState r now) = true)
    by (apply rangeState_covers; assumption).
  cbv zeta. unfold getOpenStatus. rewrite T, R. fold now.
  rewrite (scanRanges_skip _ _ _ Hb). simpl. rewrite H24.
  rewrite (checkTimeRange_some _ _ _ F). cbn [isOpen minutesUntilClose closesAt].
  split; [reflexivity|]. split; [|reflexivity].
  f_equal. unfold rangeState. rewrite (Z.geb_leb now (start r)).
  destruct (end_ r <? start r), (start r <=? now); reflexivity.
Qed.


Lemma getOpenStatus_first_match_witness :
  let result := getOpenStatus overlappingShifts (mkDate 1 16 30) in
  isOpen result = true /\ minutesUntilClose result = Some 30 /\
  closesAt result = Some (js "5:00 PM").
Proof.
  apply (@getOpenStatus_first_match overlappingShifts (mkDate 1 16 30)
           [] (mkRange 540 1020 false) [mkRange 960 1380 false]).
  - reflexivity.
  - intros b [].
  - right. left. vm_compute. repeat split; discriminate.
  - reflexivity.
Defined.

(** ** A closed place always has a next opening *)

Lemma parseTimeRange_not_nil input : parseTimeRange input <> Some [].
Proof.
  unfold parseTimeRange. destruct input as [s|]; [|discriminate].
  destruct (isEmpty s || str_eqb s (js "Closed")); [discriminate|].
  destruct (includes s (js "Open 24 hours")); [discriminate|].
  cbv zeta. destruct (fold_left pushPeriod (periodsOf s) []); discriminate.
Qed.

Lemma getTodayHours_ranges_not_nil hours date today :
  getTodayHours hours date = Some today -> ranges today <> Some [].
Proof.
  unfold getTodayHours. destruct hours as [hs|]; [|discriminate].
  destruct (length hs =? 0)%nat; [discriminate|].
  destruct (find _ hs) as [[entry|]|]; try discriminate.
  intros H. injection H as <-.
  exact (@parseTimeRange_not_nil
           (Some (removeFirst (dayNameAt (getDay date) ++ js ": ") entry))).
Qed.

Lemma followingDays_some hours date n : forall k i,
  (k <= i < k + n)%nat ->
  checkDay hours date i <> None ->
  followingDays hours date k n <> None.
Proof.
  induction n as [|n IH]; intros k i Hi Hc; [lia|]. simpl.
  destruct (checkDay hours date k) eqn:E; [discriminate|].
  destruct (Nat.eq_dec k i) as [->|Hne]; [congruence|].
  apply (IH (S k) i); [lia | exact Hc].
Qed.

Lemma addDays_week date :
  (getDay date < 7)%nat -> getDay (addDays date 7) = getDay date.
Proof.
  unfold addDays. cbn [getDay].
  generalize (getDay date) as d. intros d Hd.
  do 7 (destruct d as [|d]; [reflexivity|]). lia.
Qed.

(** X8: on a valid date, a status [closed] always comes with a next
    opening: [opensAt] is a text and never [null], because the search
    reaches today's weekday again after seven days. *)
Theorem getOpenStatus_closed_opensAt (hours : WeeklyHours) (date : Date) :
  (getDay date < 7)%nat ->
  status (getOpenStatus hours date) = StatusClosed ->
  exists label, opensAt (getOpenStatus hours date) = Some (Some label).
Proof.
  intros Hd.
  destruct (getOpenStatus_cases hours date)
    as [[-> U]|(td & rs & T & R & [(result & S & ->)|[S ->]])].
  - discriminate.
  - destruct (scanRanges_fields _ _ _ S) as (_ & _ & [E|E] & _);
      rewrite E; discriminate.
  - intros _. cbn [opensAt].
    destruct (findNextOpenTime hours date) as [label|] eqn:F; [eauto|].
    exfalso.
    destruct (getTodayHours_some_hours _ _ T) as (hs & -> & L).
    rewrite findNextOpenTime_unfold in F by exact L.
    destruct (laterToday _ _); [discriminate|].
    revert F. apply (@followingDays_some (Some hs) date 7 1 7); [lia|].
    rewrite checkDay_rangesOn. unfold rangesOn.
    rewrite (@getTodayHours_weekday (Some hs) (addDays date 7) date)
      by (apply addDays_week; exact Hd).
    rewrite T, R.
    destruct rs as [|r rs]; [|discriminate].
    exfalso. exact (getTodayHours_ranges_not_nil _ _ T R).
Qed.

Lemma getOpenStatus_closed_opensAt_witness :
  exists label,
    opensAt (getOpenStatus mondayOnly (mkDate 1 17 30)) = Some (Some label).
Proof.
  apply getOpenStatus_closed_opensAt; [simpl; lia | reflexivity].
Defined.

(** ** A day that is open 24 hours *)

Lemma find_skip (f : option jsstring -> bool) others x rest :
  (forall h, In h others -> f h = false) -> f x = true ->
  find f (others ++ x :: rest) = Some x.
Proof.
  intros Ho Hx. induction others as [|h others IH]; simpl.
  - rewrite Hx. reflexivity.
  - rewrite (Ho h (or_introl eq_refl)). apply IH.
    intros h' Hh'. apply Ho. right. exact Hh'.
Qed.

Lemma removeFirst_prefix p t : removeFirst p (p ++ t) = t.
Proof.
  assert (U : removeFirst p (p ++ t) = skipn (length p) (p ++ t)).
  { destruct (p ++ t) eqn:E; simpl; rewrite <- E, startsWith_app; reflexivity. }
  rewrite U. clear U. induction p as [|c p IH]; [reflexivity | exact IH].
Qed.

Lemma isEntryFor_entry name text :
  isEntryFor name (Some (name ++ js ": " ++ text)) = true.
Proof.
  unfold isEntryFor.
  change (name ++ js ": " ++ text) with (name ++ js ":" ++ js " " ++ text).
  rewrite app_assoc, startsWith_app.
  destruct name; reflexivity.
Qed.

Lemma parseTimeRange_includes_24h s :
  includes s (js "Open 24 hours") = true ->
  parseTimeRange (Some s) = Some [range24h].
Proof.
  intros I. unfold parseTimeRange. rewrite I.
  destruct (isEmpty s) eqn:E.
  - destruct s; [discriminate I | discriminate E].
  - destruct (str_eqb s (js "Closed")) eqn:C; [|reflexivity].
    apply str_eqb_eq in C. subst s. discriminate I.
Qed.

(** X9: when the first entry for today's weekday contains
    "Open 24 hours", [getOpenStatus] answers open at every time of the
    day, never closing soon, with no closing time and no minutes until
    close, and [todayHours] is the text that follows the name of the
    day. *)
Theorem getOpenStatus_open_24_hours others rest before after date :
  let today := dayNameAt (getDay date) in
  let text := before ++ js "Open 24 hours" ++ after in
  (forall e, In (Some e) others -> startsWith e (today ++ js ":") = false) ->
  getOpenStatus (Some (others ++ Some (today ++ js ": " ++ text) :: rest)) date
  = mkStatus true false None None StatusOpen None (Some text).
Proof.
  intros today text Ho.
  unfold getOpenStatus, getTodayHours. cbv zeta. fold today.
  destruct (length _ =? 0)%nat eqn:L.
  { apply Nat.eqb_eq in L. rewrite length_app in L. simpl in L. lia. }
  rewrite find_skip.
  - rewrite app_assoc, removeFirst_prefix. cbn [ranges timeStr].
    rewrite parseTimeRange_includes_24h
      by (apply includes_spec; exists before, after; reflexivity).
    reflexivity.
  - intros [e|] Hin; simpl; [|reflexivity].
    rewrite (Ho e Hin). apply andb_false_r.
  - apply isEntryFor_entry.
Qed.

Lemma getOpenStatus_open_24_hours_witness :
  getOpenStatus
    (Some ([Some (js "Sunday: Closed")]
           ++ Some (js "Monday" ++ js ": " ++ [] ++ js "Open 24 hours" ++ [])
           :: [Some (js "Tuesday: Closed")]))
    (mkDate 1 3 15)
  = mkStatus true false None None StatusOpen None (Some (js "Open 24 hours")).
Proof.
  apply (@getOpenStatus_open_24_hours [Some (js "Sunday: Closed")]
           [Some (js "Tuesday: Closed")] [] [] (mkDate 1 3 15)).
  intros e [H|[]]. injection H as <-. reflexivity.
Defined.

(** ** The minutes until close *)

Lemma getOpenStatus_minutes_positive_witness :
  minutesUntilClose (getOpenStatus mondayOnly (mkDate 1 16 30)) = Some 30 /\
  0 < 30.
Proof.
  split; [reflexivity|].
  apply (@getOpenStatus_minutes_positive mondayOnly (mkDate 1 16 30) 30).
  - unfold validDate. simpl. lia.
  - reflexivity.
Defined.

(** * Properties of the slugs, the URL hash and the place filter *)

Module FilterFacts.
Import Filters.


Lemma isSlugChar_not_hyphen c : isSlugChar c = true -> isHyphen c = false.
Proof.
  unfold isSlugChar, isHyphen. intros H.
  apply orb_true_iff in H.
  destruct H as [H|H]; apply andb_true_iff in H; destruct H as [H1 H2];
    apply N.leb_le in H1, H2; apply N.eqb_neq; lia.
Qed.

Lemma isHyphen_eq c : isHyphen c = true -> c = hyphen.
Proof. unfold isHyphen. apply N.eqb_eq. Qed.

Lemma replaceRuns_codes inRun s :
  forallb slugCode (replaceRuns inRun s) = true.
Proof.
  revert inRun. induction s as [|c s IH]; intros inRun; simpl; [reflexivity|].
  destruct (isSlugChar c) eqn:C.
  - simpl. unfold slugCode at 1. rewrite C. apply IH.
  - destruct inRun; [apply IH|]. simpl. apply IH.
Qed.

Lemma replaceRuns_hyphens inRun s :
  noDoubleHyphen (replaceRuns inRun s) = true /\
  (inRun = true -> startsWithHyphen (replaceRuns inRun s) = false).
Proof.
  revert inRun. induction s as [|c s IH]; intros inRun; simpl.
  - split; reflexivity.
  - destruct (isSlugChar c) eqn:C.
    + pose proof (isSlugChar_not_hyphen _ C) as Hc.
      destruct (IH false) as [N _]. split.
      * simpl. rewrite Hc. simpl.
        destruct (replaceRuns false s); [reflexivity | exact N].
      * intros _. simpl. exact Hc.
    + destruct inRun.
      * apply IH.
      * destruct (IH true) as [N S]. specialize (S eq_refl). split.
        -- destruct (replaceRuns true s) as [|d t]; [reflexivity|].
           change (negb (isHyphen hyphen && isHyphen d)
                   && noDoubleHyphen (d :: t) = true).
           simpl in S. rewrite S, andb_false_r. exact N.
        -- discriminate.
Qed.

Lemma noDoubleHyphen_tail c s :
  noDoubleHyphen (c :: s) = true -> noDoubleHyphen s = true.
Proof.
  simpl. destruct s as [|d t]; [reflexivity|].
  intros H. apply andb_true_iff in H. tauto.
Qed.

Lemma dropWhile_hyphen_shape s :
  forallb slugCode s = true -> noDoubleHyphen s = true ->
  forallb slugCode (dropWhile isHyphen s) = true /\
  noDoubleHyphen (dropWhile isHyphen s) = true /\
  startsWithHyphen (dropWhile isHyphen s) = false.
Proof.
  induction s as [|c s IH]; intros F N.
  - repeat split.
  - simpl. destruct (isHyphen c) eqn:C.
    + apply IH.
      * simpl in F. apply andb_true_iff in F. tauto.
      * exact (noDoubleHyphen_tail _ _ N).
    + split; [exact F|]. split; [exact N|]. simpl. exact C.
Qed.

Lemma dropTrailingHyphens_head s d t :
  dropTrailingHyphens s = d :: t -> exists s', s = d :: s'.
Proof.
  destruct s as [|c s]; simpl; [discriminate|].
  destruct (dropTrailingHyphens s).
  - destruct (isHyphen c); [discriminate|].
    intros H. injection H as <- _. eauto.
  - intros H. injection H as <- _. eauto.
Qed.

Lemma dropTrailingHyphens_shape s :
  forallb slugCode s = true -> noDoubleHyphen s = true ->
  forallb slugCode (dropTrailingHyphens s) = true /\
  noDoubleHyphen (dropTrailingHyphens s) = true /\
  endsWithHyphen (dropTrailingHyphens s) = false /\
  (startsWithHyphen s = false ->
   startsWithHyphen (dropTrailingHyphens s) = false).
Proof.
  induction s as [|c s IH]; intros F N.
  - repeat split.
  - simpl in F. apply andb_true_iff in F. destruct F as [Fc F].
    destruct (IH F (noDoubleHyphen_tail _ _ N)) as (F' & N' & E' & _).
    simpl. destruct (dropTrailingHyphens s) as [|d t] eqn:D.
    + destruct (isHyphen c) eqn:C.
      * repeat split.
      * simpl. rewrite Fc, C. repeat split.
    + destruct (dropTrailingHyphens_head _ D) as [s' ->].
      split; [simpl; rewrite Fc; exact F'|].
      split.
      * simpl in N. apply andb_true_iff in N. destruct N as [N _].
        change (negb (isHyphen c && isHyphen d)
                && noDoubleHyphen (d :: t) = true).
        rewrite N. exact N'.
      * split; [exact E'|]. intros H. exact H.
Qed.

Lemma slugify_isSlug name : isSlug (slugify name) = true.
Proof.
  unfold slugify, stripHyphens.
  set (r := replaceRuns false (removeApostrophes (toLowerCase name))).
  destruct (dropWhile_hyphen_shape r (replaceRuns_codes _ _)
              (proj1 (replaceRuns_hyphens _ _))) as (F & N & S).
  destruct (dropTrailingHyphens_shape _ F N) as (F' & N' & E' & S').
  unfold isSlug. fold slugCode.
  rewrite F', N', E', (S' S). reflexivity.
Qed.

Lemma slugCode_cases c :
  slugCode c = true -> isSlugChar c = true \/ c = hyphen.
Proof.
  unfold slugCode. intros H. apply orb_true_iff in H.
  destruct H as [H|H]; [left; exact H | right; exact (isHyphen_eq _ H)].
Qed.

Lemma slugCode_lower c : slugCode c = true -> lowerCode c = [c].
Proof.
  intros H. unfold lowerCode.
  destruct (slugCode_cases _ H) as [S| ->]; [|reflexivity].
  unfold isSlugChar in S.
  destruct ((65 <=? c) && (c <=? 90))%N eqn:U.
  - apply andb_true_iff in U. destruct U as [U1 U2].
    apply N.leb_le in U1, U2.
    apply orb_true_iff in S.
    destruct S as [S|S]; apply andb_true_iff in S; destruct S as [S1 S2];
      apply N.leb_le in S1, S2; lia.
  - assert (B : (c <= 122)%N).
    { apply orb_true_iff in S.
      destruct S as [S|S]; apply andb_true_iff in S; destruct S as [S1 S2];
        apply N.leb_le in S1, S2; lia. }
    destruct (N.eqb_spec c 304); [lia|].
    destruct (N.eqb_spec c 8490); [lia|]. reflexivity.
Qed.

Lemma slugCode_not_apostrophe c : slugCode c = true -> isApostrophe c = false.
Proof.
  intros H. unfold isApostrophe.
  destruct (slugCode_cases _ H) as [S| ->]; [|reflexivity].
  unfold isSlugChar in S. apply N.eqb_neq.
  apply orb_true_iff in S.
  destruct S as [S|S]; apply andb_true_iff in S; destruct S as [S1 S2];
    apply N.leb_le in S1, S2; lia.
Qed.

Lemma toLowerCase_slug s : forallb slugCode s = true -> toLowerCase s = s.
Proof.
  induction s as [|c s IH]; simpl; [reflexivity|].
  intros H. apply andb_true_iff in H. destruct H as [Hc H].
  unfold toLowerCase in *. simpl.
  rewrite (slugCode_lower _ Hc), (IH H). reflexivity.
Qed.

Lemma removeApostrophes_slug s :
  forallb slugCode s = true -> removeApostrophes s = s.
Proof.
  unfold removeApostrophes.
  induction s as [|c s IH]; simpl; [reflexivity|].
  intros H. apply andb_true_iff in H. destruct H as [Hc H].
  rewrite (slugCode_not_apostrophe _ Hc). simpl.
  rewrite (IH H). reflexivity.
Qed.

Lemma replaceRuns_slug s : forall inRun,
  forallb slugCode s = true -> noDoubleHyphen s = true ->
  (inRun = true -> startsWithHyphen s = false) ->
  replaceRuns inRun s = s.
Proof.
  induction s as [|c s IH]; intros inRun F N S; [reflexivity|].
  simpl in F. apply andb_true_iff in F. destruct F as [Fc F].
  pose proof (noDoubleHyphen_tail _ _ N) as N'.
  simpl. destruct (isSlugChar c) eqn:C.
  - rewrite (IH false F N'); [reflexivity | discriminate].
  - destruct (slugCode_cases _ Fc) as [C'| ->]; [congruence|].
    destruct inRun.
    + specialize (S eq_refl). discriminate S.
    + rewrite (IH true F N'); [reflexivity|].
      intros _. destruct s as [|d t]; [reflexivity|].
      simpl in N. apply andb_true_iff in N. destruct N as [N _].
      simpl. destruct (isHyphen d); [discriminate N | reflexivity].
Qed.

Lemma dropTrailingHyphens_slug s :
  endsWithHyphen s = false -> dropTrailingHyphens s = s.
Proof.
  induction s as [|c s IH]; intros E; [reflexivity|].
  simpl. destruct s as [|d t].
  - simpl in *. rewrite E. reflexivity.
  - rewrite IH by exact E. reflexivity.
Qed.

Lemma slugify_slug s : isSlug s = true -> slugify s = s.
Proof.
  unfold isSlug. fold slugCode. intros H.
  repeat (apply andb_true_iff in H; destruct H as [H ?]).
  match goal with X : negb (startsWithHyphen s) = true |- _ =>
    apply negb_true_iff in X; rename X into S end.
  match goal with X : negb (endsWithHyphen s) = true |- _ =>
    apply negb_true_iff in X; rename X into E end.
  match goal with X : noDoubleHyphen s = true |- _ => rename X into N end.
  unfold slugify, stripHyphens.
  rewrite (toLowerCase_slug _ H), (removeApostrophes_slug _ H).
  rewrite (@replaceRuns_slug s false H N) by discriminate.
  assert (D : dropWhile isHyphen s = s).
  { destruct s as [|c t]; [reflexivity|]. simpl in *. rewrite S. reflexivity. }
  rewrite D. apply dropTrailingHyphens_slug. exact E.
Qed.

(** X11: a slug is made of the small letters a to z, the digits and
    hyphens; it neither starts nor ends with a hyphen and has no two
    hyphens in a row. *)
Theorem slugify_shape name :
  let slug := slugify name in
  (forall c, In c slug ->
     (97 <= c <= 122)%N \/ (48 <= c <= 57)%N \/ c = 45%N) /\
  (forall t, slug <> 45%N :: t) /\
  (forall t, slug <> t ++ [45%N]) /\
  (forall t u, slug <> t ++ 45%N :: 45%N :: u).
Proof.
  cbv zeta. pose proof (slugify_isSlug name) as H.
  generalize dependent (slugify name). intros slug H.
  unfold isSlug in H. fold slugCode in H.
  repeat (apply andb_true_iff in H; destruct H as [H ?]).
  match goal with X : negb (startsWithHyphen slug) = true |- _ =>
    apply negb_true_iff in X; rename X into S end.
  match goal with X : negb (endsWithHyphen slug) = true |- _ =>
    apply negb_true_iff in X; rename X into E end.
  match goal with X : noDoubleHyphen slug = true |- _ => rename X into N end.
  split; [|split; [|split]].
  - intros c Hc. rewrite forallb_forall in H. specialize (H c Hc).
    destruct (slugCode_cases _ H) as [C| ->]; [|auto].
    unfold isSlugChar in C. apply orb_true_iff in C.
    destruct C as [C|C]; apply andb_true_iff in C; destruct C as [C1 C2];
      apply N.leb_le in C1, C2; auto.
  - intros t ->. discriminate S.
  - intros t ->. clear -E. induction t as [|c t IH]; [discriminate E|].
    apply IH. destruct t; exact E.
  - intros t u ->. clear -N. induction t as [|c t IH].
    + discriminate N.
    + apply IH. exact (noDoubleHyphen_tail _ _ N).
Qed.

Lemma slugify_shape_witness :
  slugify (js "Powell's Books") = js "powells-books" /\
  ((97 <= 45 <= 122)%N \/ (48 <= 45 <= 57)%N \/ 45%N = 45%N).
Proof.
  split; [reflexivity|].
  apply (proj1 (slugify_shape (js "Powell's Books"))).
  vm_compute. do 7 right. left. reflexivity.
Defined.

(** X12: [slugify] leaves a slug as it is, so it is idempotent:
    [slugify (slugify name)] is [slugify name]. *)
Theorem slugify_idempotent name : slugify (slugify name) = slugify name.
Proof. apply slugify_slug. apply slugify_isSlug. Qed.

(** ** The URL hash *)


Lemma splitOn_cons sep s : exists w ws, splitOn sep s = w :: ws.
Proof.
  destruct s as [|c s]; simpl; [eauto|].
  destruct (splitOn sep s) as [|w ws]; [eauto|].
  destruct (code_eqb c sep); eauto.
Qed.

Lemma splitOn_part p rest :
  noSlash p = true ->
  splitOn slash (p ++ slash :: rest) = p :: splitOn slash rest.
Proof.
  induction p as [|c p IH]; intros H.
  - simpl. destruct (splitOn_cons slash rest) as (w & ws & ->). reflexivity.
  - simpl in H. apply andb_true_iff in H. destruct H as [Hc H].
    apply negb_true_iff in Hc.
    simpl. rewrite (IH H), Hc. reflexivity.
Qed.

Lemma splitOn_last p : noSlash p = true -> splitOn slash p = [p].
Proof.
  induction p as [|c p IH]; intros H; [reflexivity|].
  simpl in H. apply andb_true_iff in H. destruct H as [Hc H].
  apply negb_true_iff in Hc.
  simpl. rewrite (IH H), Hc. reflexivity.
Qed.

Lemma splitOn_join parts :
  parts <> [] -> forallb noSlash parts = true ->
  splitOn slash (join slash parts) = parts.
Proof.
  induction parts as [|p ps IH]; intros Hn H; [contradiction|].
  simpl in H. apply andb_true_iff in H. destruct H as [Hp H].
  destruct ps as [|q ps].
  - simpl. apply splitOn_last. exact Hp.
  - change (join slash (p :: q :: ps)) with (p ++ slash :: join slash (q :: ps)).
    rewrite (splitOn_part _ _ Hp), IH; [reflexivity | discriminate | exact H].
Qed.

Lemma filter_nonempty parts :
  forallb (fun p => negb (isEmpty p)) parts = true ->
  filter (fun p => negb (isEmpty p)) parts = parts.
Proof.
  induction parts as [|p ps IH]; simpl; [reflexivity|].
  intros H. apply andb_true_iff in H. destruct H as [Hp H].
  rewrite Hp, (IH H). reflexivity.
Qed.

(** What [decodeFilterHash] reads out of a hash that was joined from
    parts without slash, none of them empty. *)
Lemma decodeFilterHash_parts p0 ps places :
  forallb noSlash (p0 :: ps) = true ->
  forallb (fun p => negb (isEmpty p)) (p0 :: ps) = true ->
  decodeFilterHash (hashSign :: join slash (p0 :: ps)) places =
    let parts := p0 :: ps in
    let result := mkFilter all all all false in
    let '(result, idx) :=
      if includesString validStatuses p0
      then (mkFilter (if str_eqb p0 all then all else p0)
              (category result) (primary result) (openNow result), 1%nat)
      else (result, 0%nat) in
    let '(result, idx) :=
      match partAt parts idx with
      | Some p =>
          match findCategoryBySlug p places with
          | Some c =>
              if isEmpty c then (result, idx)
              else (mkFilter (status result) c (primary result)
                      (openNow result), S idx)
          | None => (result, idx)
          end
      | None => (result, idx)
      end in
    match partAt parts idx with
    | Some p =>
        if str_eqb (category result) foodAndDrink
           && includesString validPrimaries p
        then mkFilter (status result) (category result) p (openNow result)
        else result
    | None => result
    end.
Proof.
  intros Hs He.
  assert (J : exists c t, join slash (p0 :: ps) = c :: t).
  { simpl in He. apply andb_true_iff in He. destruct He as [He _].
    destruct p0 as [|c p0]; [discriminate He|].
    destruct ps; simpl; eauto. }
  destruct J as (c & t & J).
  unfold decodeFilterHash.
  assert (E : isEmpty (hashSign :: join slash (p0 :: ps))
              || str_eqb (hashSign :: join slash (p0 :: ps)) (js "#") = false).
  { rewrite J. reflexivity. }
  rewrite E.
  assert (D : dropHash (hashSign :: join slash (p0 :: ps))
              = join slash (p0 :: ps)) by reflexivity.
  rewrite D, splitOn_join, filter_nonempty by (assumption || discriminate).
  reflexivity.
Qed.

Lemma includesString_In l x : includesString l x = true <-> In x l.
Proof.
  unfold includesString. rewrite existsb_exists. split.
  - intros (y & Hy & E). apply str_eqb_eq in E. subst y. exact Hy.
  - intros H. exists x. split; [exact H | apply str_eqb_eq; reflexivity].
Qed.

Lemma slug_noSlash name : noSlash (slugify name) = true.
Proof.
  pose proof (slugify_isSlug name) as H. unfold isSlug in H.
  repeat (apply andb_true_iff in H; destruct H as [H _]).
  unfold noSlash. rewrite forallb_forall in *. intros c Hc.
  specialize (H c Hc). fold (slugCode c) in H.
  apply negb_true_iff. unfold code_eqb. apply N.eqb_neq.
  destruct (slugCode_cases _ H) as [S| ->]; [|discriminate].
  unfold isSlugChar in S. apply orb_true_iff in S.
  destruct S as [S|S]; apply andb_true_iff in S; destruct S as [S1 S2];
    apply N.leb_le in S1, S2; unfold slash; lia.
Qed.

Lemma validStatus_facts s :
  In s validStatuses ->
  noSlash s = true /\ isEmpty s = false /\
  includesString validStatuses s = true /\
  (if str_eqb s all then all else s) = s.
Proof.
  intros [<-|[<-|[<-|[]]]]; repeat split.
Qed.

Lemma validPrimary_facts p :
  In p validPrimaries ->
  noSlash p = true /\ isEmpty p = false /\
  includesString validPrimaries p = true.
Proof.
  intros [<-|[<-|[<-|[]]]]; repeat split.
Qed.

Lemma hash_round_trip filterState places :
  openNow filterState = false ->
  In (status filterState) validStatuses ->
  findCategoryBySlug (slugify (category filterState)) places
    = Some (category filterState) ->
  (primary filterState = all \/
   (category filterState = foodAndDrink /\
    In (primary filterState) validPrimaries)) ->
  decodeFilterHash (encodeFilterHash filterState) places = filterState.
Proof.
  destruct filterState as [s c p o]. cbn [status category primary openNow].
  intros -> Hs Hc Hp.
  destruct (validStatus_facts Hs) as (Ns & Es & Is & Ss).
  destruct (str_eqb c all) eqn:Ca.
  - apply str_eqb_eq in Ca. subst c.
    assert (p = all) as ->.
    { destruct Hp as [Hp|[Hp _]]; [exact Hp | discriminate Hp]. }
    destruct Hs as [<-|[<-|[<-|[]]]]; reflexivity.
  - assert (Z : isEmpty (slugify c) = false /\ isEmpty c = false).
    { unfold findCategoryBySlug in Hc.
      destruct (isEmpty (slugify c) || str_eqb (slugify c) all) eqn:Z.
      - injection Hc as <-. discriminate Ca.
      - apply orb_false_iff in Z. destruct Z as [Z _].
        split; [exact Z|]. destruct c; [discriminate Z | reflexivity]. }
    destruct Z as [Zs Zc].
    pose proof (slug_noSlash c) as Nc.
    assert (E : encodeFilterHash (mkFilter s c p false) =
                hashSign :: join slash
                  (s :: slugify c ::
                   if negb (str_eqb p all) && str_eqb c foodAndDrink
                   then [p] else [])).
    { unfold encodeFilterHash. cbn [status category primary openNow].
      rewrite Ca. cbn [negb orb app].
      destruct (str_eqb s all) eqn:Sa.
      - apply str_eqb_eq in Sa. subst s.
        destruct (negb (str_eqb p all) && str_eqb c foodAndDrink);
          reflexivity.
      - destruct (negb (str_eqb p all) && str_eqb c foodAndDrink);
          reflexivity. }
    rewrite E.
    destruct (str_eqb p all) eqn:Pa.
    + apply str_eqb_eq in Pa. subst p. cbn [negb andb].
      rewrite decodeFilterHash_parts
        by (cbn [forallb]; rewrite ?Ns, ?Nc, ?Es, ?Zs; reflexivity).
      cbv zeta. rewrite Is, Ss.
      cbn [partAt nth_error category primary openNow status].
      rewrite Zs, Hc, Zc. reflexivity.
    + assert (F : c = foodAndDrink /\ In p validPrimaries).
      { destruct Hp as [->|Hp]; [discriminate Pa | exact Hp]. }
      destruct F as [-> Fp].
      destruct (validPrimary_facts Fp) as (Np & Ep & Ip).
      change (str_eqb foodAndDrink foodAndDrink) with true. cbn [negb andb].
      rewrite decodeFilterHash_parts
        by (cbn [forallb]; rewrite ?Ns, ?Nc, ?Np, ?Es, ?Zs, ?Ep; reflexivity).
      cbv zeta. rewrite Is, Ss.
      cbn [partAt nth_error category primary openNow status].
      rewrite Zs, Hc. cbn [isEmpty foodAndDrink js].
      change (isEmpty foodAndDrink) with false. cbv iota.
      cbn [partAt nth_error category primary openNow status].
      rewrite Ep, Ip.
      change (str_eqb foodAndDrink foodAndDrink) with true.
      reflexivity.
Qed.

(** X13: a filter state survives the trip through the URL hash. When
    [openNow] is off, the status is one of all, haunts and queue, the
    category is "all" or the first category of the places with its slug,
    and the primary is "all" or, under Food & Drink, one of coffee, bar
    and restaurant, [decodeFilterHash] gives back the state that
    [encodeFilterHash] wrote. *)
Theorem decodeFilterHash_encodeFilterHash filterState places :
  openNow filterState = false ->
  In (status filterState) validStatuses ->
  findCategoryBySlug (slugify (category filterState)) places
    = Some (category filterState) ->
  (primary filterState = all \/
   (category filterState = foodAndDrink /\
    In (primary filterState) validPrimaries)) ->
  decodeFilterHash (encodeFilterHash filterState) places = filterState.
Proof. apply hash_round_trip. Qed.

Lemma decodeFilterHash_encodeFilterHash_witness :
  decodeFilterHash
    (encodeFilterHash (mkFilter (js "queue") foodAndDrink (js "bar") false))
    samplePlaces
  = mkFilter (js "queue") foodAndDrink (js "bar") false.
Proof.
  apply decodeFilterHash_encodeFilterHash.
  - reflexivity.
  - right. right. left. reflexivity.
  - reflexivity.
  - right. split; [reflexivity|]. right. left. reflexivity.
Defined.

(** ** What [decodeFilterHash] can return *)


Lemma findCategoryBySlug_found slug places c :
  findCategoryBySlug slug places = Some c ->
  (c = all \/ exists f, In f places /\ placeCategory f = c) /\
  findCategoryBySlug (slugify c) places = Some c.
Proof.
  unfold findCategoryBySlug at 1.
  destruct (isEmpty slug || str_eqb slug all) eqn:Z.
  - intros H. injection H as <-. split; [left|]; reflexivity.
  - destruct (find _ places) as [feature|] eqn:F; [|discriminate].
    intros H. injection H as <-.
    destruct (find_some _ _ F) as [Fin Fs].
    apply str_eqb_eq in Fs.
    split; [right; eauto|].
    rewrite Fs. unfold findCategoryBySlug. rewrite Z, F. reflexivity.
Qed.

Lemma partAt_nonempty parts idx p :
  partAt parts idx = Some p -> isEmpty p = false.
Proof.
  unfold partAt. destruct (nth_error parts idx) as [q|]; [|discriminate].
  destruct (isEmpty q) eqn:E; [discriminate|].
  intros H. injection H as <-. exact E.
Qed.

Lemma decodeFilterHash_carried hash places :
  carried places (decodeFilterHash hash places).
Proof.
  assert (D : carried places (mkFilter all all all false)).
  { unfold carried. cbn [openNow status category primary].
    split; [reflexivity|]. split; [left; reflexivity|].
    split; [reflexivity | left; reflexivity]. }
  unfold decodeFilterHash.
  destruct (isEmpty hash || str_eqb hash (js "#")); [exact D|].
  generalize (filter (fun p => negb (isEmpty p)) (splitOn slash (dropHash hash))).
  intros parts. cbv zeta.
  destruct (length parts =? 0)%nat; [exact D|].
  (* the status *)
  assert (S : exists st idx,
             (match parts with
              | p0 :: _ =>
                  if includesString validStatuses p0
                  then (mkFilter (if str_eqb p0 all then all else p0)
                          all all false, 1%nat)
                  else (mkFilter all all all false, 0%nat)
              | [] => (mkFilter all all all false, 0%nat)
              end) = (mkFilter st all all false, idx) /\
             In st validStatuses).
  { destruct parts as [|p0 ps];
      [exists all, 0%nat; split; [reflexivity | left; reflexivity]|].
    destruct (includesString validStatuses p0) eqn:I.
    - exists (if str_eqb p0 all then all else p0), 1%nat.
      split; [reflexivity|].
      destruct (str_eqb p0 all); [left; reflexivity|].
      apply includesString_In. exact I.
    - exists all, 0%nat. split; [reflexivity | left; reflexivity]. }
  destruct S as (st & idx & S & Hst).
  cbn [category primary openNow] in *. rewrite S. clear S.
  (* the category *)
  assert (C : exists c idx',
             (match partAt parts idx with
              | Some p =>
                  match findCategoryBySlug p places with
                  | Some c =>
                      if isEmpty c then (mkFilter st all all false, idx)
                      else (mkFilter st c all false, S idx)
                  | None => (mkFilter st all all false, idx)
                  end
              | None => (mkFilter st all all false, idx)
              end) = (mkFilter st c all false, idx') /\
             findCategoryBySlug (slugify c) places = Some c).
  { destruct (partAt parts idx) as [p|];
      [|exists all, idx; split; reflexivity].
    destruct (findCategoryBySlug p places) as [c|] eqn:F;
      [|exists all, idx; split; reflexivity].
    destruct (isEmpty c); [exists all, idx; split; reflexivity|].
    exists c, (S idx). split; [reflexivity|].
    exact (proj2 (findCategoryBySlug_found _ _ F)). }
  destruct C as (c & idx' & C & Hc).
  cbn [status category primary openNow] in *. rewrite C. clear C.
  (* the primary *)
  destruct (partAt parts idx') as [p|].
  - cbn [category status openNow].
    destruct (str_eqb c foodAndDrink && includesString validPrimaries p) eqn:P.
    + apply andb_true_iff in P. destruct P as [Pc Pp].
      apply str_eqb_eq in Pc. apply includesString_In in Pp.
      unfold carried. cbn [openNow status category primary]. intuition auto.
    + unfold carried. cbn [openNow status category primary]. intuition auto.
  - unfold carried. cbn [openNow status category primary]. intuition auto.
Qed.

(** X14: whatever the hash, [decodeFilterHash] returns a status among
    all, haunts and queue, a category that is "all" or the category of
    one of the places, and a primary that is "all" or, under
    Food & Drink only, one of coffee, bar and restaurant. *)
Theorem decodeFilterHash_valid hash places :
  let result := decodeFilterHash hash places in
  In (status result) validStatuses /\
  (category result = all \/
   exists f, In f places /\ placeCategory f = category result) /\
  (primary result = all \/
   (category result = foodAndDrink /\ In (primary result) validPrimaries)).
Proof.
  cbv zeta.
  destruct (decodeFilterHash_carried hash places) as (_ & Hs & Hc & Hp).
  split; [exact Hs|]. split; [|exact Hp].
  exact (proj1 (findCategoryBySlug_found _ _ Hc)).
Qed.

(** X15: writing a decoded state back into a hash and decoding it again
    gives the same state: a hash and its normal form select the same
    filters. *)
Theorem decodeFilterHash_normal hash places :
  decodeFilterHash (encodeFilterHash (decodeFilterHash hash places)) places
  = decodeFilterHash hash places.
Proof.
  destruct (decodeFilterHash_carried hash places) as (Ho & Hs & Hc & Hp).
  apply hash_round_trip; assumption.
Qed.

(** X16: [encodeFilterHash] returns the empty text exactly for the state
    with [openNow] off and the status and the category "all"; every other
    state gives a text that starts with "#". The primary is only written
    under the category Food & Drink. *)
Theorem encodeFilterHash_empty filterState :
  (encodeFilterHash filterState = [] <->
   openNow filterState = false /\ status filterState = all /\
   category filterState = all) /\
  (encodeFilterHash filterState <> [] ->
   exists t, encodeFilterHash filterState = hashSign :: t) /\
  (category filterState <> foodAndDrink ->
   encodeFilterHash filterState
   = encodeFilterHash
       (mkFilter (status filterState) (category filterState) all
          (openNow filterState))).
Proof.
  destruct filterState as [s c p o]. cbn [status category primary openNow].
  unfold encodeFilterHash. cbn [status category primary openNow].
  destruct (str_eqb c foodAndDrink) eqn:Cf.
  - apply str_eqb_eq in Cf. subst c.
    change (str_eqb foodAndDrink all) with false. cbn [negb orb andb].
    split; [|split].
    + split.
      * destruct o, (str_eqb s all), (str_eqb p all);
          cbn [negb orb andb app length Nat.ltb Nat.leb]; discriminate.
      * intros (_ & _ & H). discriminate H.
    + intros _. destruct o, (str_eqb s all), (str_eqb p all);
        cbn [negb orb andb app length Nat.ltb Nat.leb];
        eexists; reflexivity.
    + intros H. contradiction H. reflexivity.
  - rewrite andb_false_r. cbn [negb andb orb].
    assert (Ns : str_eqb s all = false -> s <> all).
    { intros E ->. vm_compute in E. discriminate. }
    assert (Nc : str_eqb c all = false -> c <> all).
    { intros E ->. vm_compute in E. discriminate. }
    split; [|split].
    + destruct o, (str_eqb s all) eqn:Sa, (str_eqb c all) eqn:Ca;
        cbn [negb orb app length Nat.ltb Nat.leb];
        (split;
         [ intros H; try discriminate H;
           apply str_eqb_eq in Sa; apply str_eqb_eq in Ca; auto
         | intros (H1 & H2 & H3); try discriminate H1;
           try (exfalso; apply (Ns eq_refl); exact H2);
           try (exfalso; apply (Nc eq_refl); exact H3);
           reflexivity ]).
    + destruct o, (str_eqb s all), (str_eqb c all);
        cbn [negb orb app length Nat.ltb Nat.leb];
        intros H; try (eexists; reflexivity).
      contradiction H. reflexivity.
    + intros _. reflexivity.
Qed.

Lemma encodeFilterHash_empty_witness :
  encodeFilterHash (mkFilter all all (js "bar") false) = [] /\
  encodeFilterHash (mkFilter (js "haunts") (js "Bookstores") (js "bar") false)
  = encodeFilterHash (mkFilter (js "haunts") (js "Bookstores") all false).
Proof.
  split.
  - apply (proj1 (encodeFilterHash_empty (mkFilter all all (js "bar") false))).
    repeat split.
  - apply (proj2 (proj2 (encodeFilterHash_empty
             (mkFilter (js "haunts") (js "Bookstores") (js "bar") false)))).
    discriminate.
Defined.

(** ** The place filter *)

Lemma str_eqb_false a b : str_eqb a b = false <-> a <> b.
Proof.
  split.
  - intros E H. apply str_eqb_eq in H. congruence.
  - intros H. destruct (str_eqb a b) eqn:E; [|reflexivity].
    apply str_eqb_eq in E. contradiction.
Qed.

Lemma optionIs_eq o x : optionIs o x = true <-> o = Some x.
Proof.
  destruct o as [y|]; simpl.
  - rewrite str_eqb_eq. split; [intros ->; reflexivity|].
    intros H. injection H as ->. reflexivity.
  - split; discriminate.
Qed.

Lemma str_eqb_cases a b :
  (a = b /\ str_eqb a b = true) \/ (a <> b /\ str_eqb a b = false).
Proof.
  destruct (str_eqb a b) eqn:E.
  - left. split; [apply str_eqb_eq; exact E | reflexivity].
  - right. split; [apply str_eqb_false; exact E | reflexivity].
Qed.

Lemma optionIs_cases o x :
  (o = Some x /\ optionIs o x = true) \/ (o <> Some x /\ optionIs o x = false).
Proof.
  destruct (optionIs o x) eqn:E.
  - left. split; [apply optionIs_eq; exact E | reflexivity].
  - right. split; [|reflexivity].
    intros H. apply optionIs_eq in H. congruence.
Qed.

Lemma keepsPlace_spec filterState f :
  keepsPlace filterState f = true <->
  (status filterState = all \/ placeStatus f = status filterState) /\
  (category filterState = all \/ placeCategory f = category filterState) /\
  (primary filterState = all \/ placeCategory f <> foodAndDrink \/
   placePrimary f = Some (primary filterState)).
Proof.
  unfold keepsPlace.
  destruct (str_eqb_cases (status filterState) all) as [[Sa ->]|[Sa ->]],
    (str_eqb_cases (placeStatus f) (status filterState)) as [[Sf ->]|[Sf ->]],
    (str_eqb_cases (category filterState) all) as [[Ca ->]|[Ca ->]],
    (str_eqb_cases (placeCategory f) (category filterState))
      as [[Cf ->]|[Cf ->]],
    (str_eqb_cases (primary filterState) all) as [[Pa ->]|[Pa ->]],
    (str_eqb_cases (placeCategory f) foodAndDrink) as [[Pf ->]|[Pf ->]],
    (optionIs_cases (placePrimary f) (primary filterState))
      as [[Po ->]|[Po ->]];
    cbn [negb andb];
    (split; [intros H; try discriminate H; tauto
            | intros H; try reflexivity; exfalso; tauto]).
Qed.

(** X17: [filterPlaces] keeps exactly the places that have the status
    of the filter, unless it is "all", and the category of the filter,
    unless it is "all", and, when the filter has a primary other than
    "all", that are not Food & Drink or have that primary. *)
Theorem filterPlaces_keeps places filterState f :
  In f (filterPlaces places filterState) <->
  In f places /\
  (status filterState = all \/ placeStatus f = status filterState) /\
  (category filterState = all \/ placeCategory f = category filterState) /\
  (primary filterState = all \/ placeCategory f <> foodAndDrink \/
   placePrimary f = Some (primary filterState)).
Proof.
  unfold filterPlaces. rewrite filter_In, keepsPlace_spec. reflexivity.
Qed.

Lemma filterPlaces_keeps_witness :
  In (mkPlace (js "Rum Club") (js "queue") foodAndDrink (Some (js "bar")))
    (filterPlaces samplePlaces (mkFilter all foodAndDrink (js "bar") false)).
Proof.
  apply filterPlaces_keeps. cbn [status category primary placeStatus
    placeCategory placePrimary].
  split; [right; right; left; reflexivity|].
  split; [left; reflexivity|].
  split; [right; reflexivity|].
  right. right. reflexivity.
Defined.

Lemma filterPlaces_primary_ignored places s c p o :
  c <> all -> c <> foodAndDrink ->
  filterPlaces places (mkFilter s c p o)
  = filterPlaces places (mkFilter s c all o).
Proof.
  intros Ca Cf. unfold filterPlaces. apply filter_ext. intros f.
  destruct (keepsPlace (mkFilter s c p o) f) eqn:K1,
    (keepsPlace (mkFilter s c all o) f) eqn:K2; try reflexivity.
  - apply keepsPlace_spec in K1. cbn [status category primary] in K1.
    assert (K : keepsPlace (mkFilter s c all o) f = true).
    { apply keepsPlace_spec. cbn [status category primary]. tauto. }
    congruence.
  - apply keepsPlace_spec in K2. cbn [status category primary] in K2.
    assert (K : keepsPlace (mkFilter s c p o) f = true).
    { apply keepsPlace_spec. cbn [status category primary].
      destruct K2 as (H1 & [H2|H2] & _); [contradiction|].
      split; [exact H1|]. split; [right; exact H2|].
      right. left. rewrite H2. exact Cf. }
    congruence.
Qed.

Lemma encodeFilterHash_primary_dropped s c p o :
  c <> foodAndDrink ->
  encodeFilterHash (mkFilter s c p o) = encodeFilterHash (mkFilter s c all o).
Proof.
  intros Cf. apply str_eqb_false in Cf.
  unfold encodeFilterHash. cbn [status category primary openNow].
  rewrite Cf, !andb_false_r. reflexivity.
Qed.

(** X18: the hash keeps the selection. With [openNow] off, a status
    among all, haunts and queue, a category that is the first of the
    places with its slug, and a primary that is "all", or one of coffee,
    bar and restaurant under Food & Drink, or anything under another
    category than "all", the state read back from the hash filters the
    places as the state that was written. *)
Theorem filterPlaces_through_hash places filterState :
  openNow filterState = false ->
  In (status filterState) validStatuses ->
  findCategoryBySlug (slugify (category filterState)) places
    = Some (category filterState) ->
  (primary filterState = all \/
   (category filterState = foodAndDrink /\
    In (primary filterState) validPrimaries) \/
   (category filterState <> all /\ category filterState <> foodAndDrink)) ->
  filterPlaces places
    (decodeFilterHash (encodeFilterHash filterState) places)
  = filterPlaces places filterState.
Proof.
  destruct filterState as [s c p o]. cbn [status category primary openNow].
  intros -> Hs Hc [Hp|[Hp|[Ca Cf]]].
  - rewrite hash_round_trip; cbn [status category primary openNow]; auto.
  - rewrite hash_round_trip; cbn [status category primary openNow]; auto.
  - rewrite (encodeFilterHash_primary_dropped s p false Cf).
    rewrite hash_round_trip; cbn [status category primary openNow]; auto.
    symmetry. apply filterPlaces_primary_ignored; assumption.
Qed.

Lemma filterPlaces_through_hash_witness :
  filterPlaces samplePlaces
    (decodeFilterHash
       (encodeFilterHash
          (mkFilter (js "haunts") (js "Bookstores") (js "coffee") false))
       samplePlaces)
  = filterPlaces samplePlaces
      (mkFilter (js "haunts") (js "Bookstores") (js "coffee") false).
Proof.
  apply filterPlaces_through_hash.
  - reflexivity.
  - right. left. reflexivity.
  - reflexivity.
  - right. right. split; discriminate.
Defined.

End FilterFacts.

(** * Properties of the display of a website *)

Module WebsiteFacts.
Import Website.

Lemma takeWhile_all p s : forallb p (takeWhile p s) = true.
Proof.
  induction s as [|c s IH]; simpl; [reflexivity|].
  destruct (p c) eqn:E; simpl; [rewrite E; exact IH | reflexivity].
Qed.

Lemma takeWhile_app p a b :
  forallb p a = true ->
  match b with [] => True | c :: _ => p c = false end ->
  takeWhile p (a ++ b) = a.
Proof.
  intros Ha Hb. induction a as [|c a IH]; simpl.
  - destruct b as [|d b]; [reflexivity|]. simpl. rewrite Hb. reflexivity.
  - simpl in Ha. apply andb_true_iff in Ha. destruct Ha as [Hc Ha].
    rewrite Hc, (IH Ha). reflexivity.
Qed.

Lemma handleAt_codes lit s g :
  handleAt lit s = Some g -> forallb isHandleCode g = true.
Proof.
  unfold handleAt. destruct (startsWith s lit); [|discriminate].
  pose proof (takeWhile_all isHandleCode (skipn (length lit) s)) as T.
  destruct (takeWhile isHandleCode (skipn (length lit) s)); [discriminate|].
  intros H. injection H as <-. exact T.
Qed.

Lemma firstHandleAt_codes lits s g :
  firstHandleAt lits s = Some g -> forallb isHandleCode g = true.
Proof.
  induction lits as [|lit lits IH]; simpl; [discriminate|].
  destruct (handleAt lit s) as [g'|] eqn:E; [|exact IH].
  intros H. injection H as <-. exact (handleAt_codes _ _ E).
Qed.

Lemma matchHandle_unfold lits s :
  matchHandle lits s =
    match firstHandleAt lits s with
    | Some g => Some g
    | None => match s with [] => None | _ :: s' => matchHandle lits s' end
    end.
Proof. destruct s; reflexivity. Qed.

Lemma matchHandle_codes lits s g :
  matchHandle lits s = Some g -> forallb isHandleCode g = true.
Proof.
  induction s as [|c s IH]; rewrite matchHandle_unfold;
    destruct (firstHandleAt lits _) as [g'|] eqn:E; try discriminate.
  - intros H. injection H as <-. exact (firstHandleAt_codes _ _ E).
  - intros H. injection H as <-. exact (firstHandleAt_codes _ _ E).
  - exact IH.
Qed.

Lemma handleCode_not_slash g :
  forallb isHandleCode g = true -> ~ In 47%N g.
Proof.
  intros H Hin. rewrite forallb_forall in H. specialize (H _ Hin).
  discriminate H.
Qed.

Lemma splitOn_hd_no_sep sep s : ~ In sep (hd [] (splitOn sep s)).
Proof.
  induction s as [|c s IH]; simpl; [intros []|].
  destruct (FilterFacts.splitOn_cons sep s) as (w & ws & W).
  rewrite W in *. simpl in IH.
  destruct (code_eqb c sep) eqn:E; simpl; [intros []|].
  intros [H|H]; [|exact (IH H)].
  subst c. unfold code_eqb in E. rewrite N.eqb_refl in E. discriminate.
Qed.

(** X19: [formatWebsiteDisplay] returns [null] for the empty text only,
    and what it displays never contains a slash: it is "@" and a handle,
    or the text before the first slash of the address. *)
Theorem formatWebsiteDisplay_no_slash url :
  (formatWebsiteDisplay url = None <-> url = []) /\
  (forall display,
     formatWebsiteDisplay url = Some display -> ~ In 47%N display).
Proof.
  assert (A : forall lits g, matchHandle lits url = Some g ->
                ~ In 47%N (at_sign :: g)).
  { intros lits g H [E|Hin]; [discriminate E|].
    exact (handleCode_not_slash _ (matchHandle_codes _ _ H) Hin). }
  unfold formatWebsiteDisplay.
  destruct url as [|c url']; [split; [split; reflexivity | discriminate]|].
  set (url := c :: url') in *. cbn [isEmpty].
  destruct (matchHandle [js "instagram.com/"] url) as [g|] eqn:Ig.
  - destruct (negb (str_eqb g (js "p")) && negb (str_eqb g (js "explore"))).
    + split; [split; discriminate|].
      intros d H. injection H as <-. exact (A _ _ Ig).
    + destruct (includes url (js "facebook.com/")).
      * destruct (matchHandle [js "facebook.com/"] url) as [f|] eqn:Fb.
        -- split; [split; discriminate|].
           intros d H. injection H as <-. exact (A _ _ Fb).
        -- destruct (isTwitterUrl url).
           ++ destruct (matchHandle [js "twitter.com/"; js "x.com/"] url)
                as [t|] eqn:Tw.
              ** split; [split; discriminate|].
                 intros d H. injection H as <-. exact (A _ _ Tw).
              ** split; [split; discriminate|].
                 intros d H. injection H as <-. apply splitOn_hd_no_sep.
           ++ split; [split; discriminate|].
              intros d H. injection H as <-. apply splitOn_hd_no_sep.
      * destruct (isTwitterUrl url).
        -- destruct (matchHandle [js "twitter.com/"; js "x.com/"] url)
             as [t|] eqn:Tw.
           ++ split; [split; discriminate|].
              intros d H. injection H as <-. exact (A _ _ Tw).
           ++ split; [split; discriminate|].
              intros d H. injection H as <-. apply splitOn_hd_no_sep.
        -- split; [split; discriminate|].
           intros d H. injection H as <-. apply splitOn_hd_no_sep.
  - destruct (includes url (js "facebook.com/")).
    + destruct (matchHandle [js "facebook.com/"] url) as [f|] eqn:Fb.
      * split; [split; discriminate|].
        intros d H. injection H as <-. exact (A _ _ Fb).
      * destruct (isTwitterUrl url).
        -- destruct (matchHandle [js "twitter.com/"; js "x.com/"] url)
             as [t|] eqn:Tw.
           ++ split; [split; discriminate|].
              intros d H. injection H as <-. exact (A _ _ Tw).
           ++ split; [split; discriminate|].
              intros d H. injection H as <-. apply splitOn_hd_no_sep.
        -- split; [split; discriminate|].
           intros d H. injection H as <-. apply splitOn_hd_no_sep.
    + destruct (isTwitterUrl url).
      * destruct (matchHandle [js "twitter.com/"; js "x.com/"] url)
          as [t|] eqn:Tw.
        -- split; [split; discriminate|].
           intros d H. injection H as <-. exact (A _ _ Tw).
        -- split; [split; discriminate|].
           intros d H. injection H as <-. apply splitOn_hd_no_sep.
      * split; [split; discriminate|].
        intros d H. injection H as <-. apply splitOn_hd_no_sep.
Qed.

Lemma formatWebsiteDisplay_no_slash_witness :
  formatWebsiteDisplay (js "https://www.heartroasters.com/")
  = Some (js "www.heartroasters.com") /\
  ~ In 47%N (js "www.heartroasters.com").
Proof.
  split; [reflexivity|].
  apply (proj2 (formatWebsiteDisplay_no_slash
                  (js "https://www.heartroasters.com/"))).
  reflexivity.
Defined.


Lemma matchHandle_instagram_skip pre s :
  forallb (fun c => negb (c =? 105)%N) pre = true ->
  matchHandle [instagram] (pre ++ s) = matchHandle [instagram] s.
Proof.
  induction pre as [|c pre IH]; intros H; [reflexivity|].
  simpl in H. apply andb_true_iff in H. destruct H as [Hc H].
  apply negb_true_iff in Hc.
  change ((c :: pre) ++ s) with (c :: (pre ++ s)).
  rewrite matchHandle_unfold.
  assert (M : firstHandleAt [instagram] (c :: pre ++ s) = None).
  { unfold firstHandleAt, handleAt, instagram.
    change (js "instagram.com/") with (105%N :: js "nstagram.com/").
    cbn [startsWith]. unfold code_eqb. rewrite Hc. reflexivity. }
  rewrite M. exact (IH H).
Qed.

Lemma matchHandle_instagram_here handle rest :
  handle <> [] -> forallb isHandleCode handle = true ->
  match rest with [] => True | c :: _ => isHandleCode c = false end ->
  matchHandle [instagram] (instagram ++ handle ++ rest) = Some handle.
Proof.
  intros Hn Hh Hr. rewrite matchHandle_unfold.
  unfold firstHandleAt, handleAt.
  rewrite startsWith_app.
  assert (K : skipn (length instagram) (instagram ++ handle ++ rest)
              = handle ++ rest) by reflexivity.
  rewrite K, (takeWhile_app _ _ _ Hh Hr).
  destruct handle; [contradiction | reflexivity].
Qed.

(** X20: an Instagram profile is displayed by its handle: for an
    address made of an optional "http://" or "https://", an optional
    "www." (the six prefixes of [webPrefixes]), "instagram.com/", a handle without slash or question mark
    other than "p" and "explore", and nothing more or a rest that starts
    with a slash or a question mark, the display is "@" and the handle. *)
Theorem formatWebsiteDisplay_instagram pre handle rest :
  In pre webPrefixes ->
  handle <> [] -> forallb isHandleCode handle = true ->
  handle <> js "p" -> handle <> js "explore" ->
  (rest = [] \/ exists c t, rest = c :: t /\ (c = 47%N \/ c = 63%N)) ->
  formatWebsiteDisplay (pre ++ js "instagram.com/" ++ handle ++ rest)
  = Some (at_sign :: handle).
Proof.
  intros Hpre Hn Hh Hp He Hr.
  assert (R : match rest with [] => True | c :: _ => isHandleCode c = false end).
  { destruct Hr as [->|(c & t & -> & [->| ->])]; [exact I | |]; reflexivity. }
  assert (S : forallb (fun c => negb (c =? 105)%N) pre = true).
  { destruct Hpre as [<-|[<-|[<-|[<-|[<-|[<-|[]]]]]]]; reflexivity. }
  assert (M : matchHandle [js "instagram.com/"]
                (pre ++ js "instagram.com/" ++ handle ++ rest) = Some handle).
  { fold instagram. rewrite (matchHandle_instagram_skip _ _ S).
    apply matchHandle_instagram_here; assumption. }
  unfold formatWebsiteDisplay. rewrite M.
  assert (E : isEmpty (pre ++ js "instagram.com/" ++ handle ++ rest) = false)
    by (destruct pre; reflexivity).
  rewrite E.
  apply FilterFacts.str_eqb_false in Hp, He. rewrite Hp, He. reflexivity.
Qed.

Lemma formatWebsiteDisplay_instagram_witness :
  formatWebsiteDisplay
    (js "https://www." ++ js "instagram.com/" ++ js "coavacoffee"
       ++ js "/?hl=en")
  = Some (at_sign :: js "coavacoffee") /\
  formatWebsiteDisplay
    (js "www." ++ js "instagram.com/" ++ js "coavacoffee" ++ [])
  = Some (at_sign :: js "coavacoffee").
Proof.
  split.
  - apply formatWebsiteDisplay_instagram.
    + right. right. right. right. left. reflexivity.
    + discriminate.
    + reflexivity.
    + discriminate.
    + discriminate.
    + right. exists 47%N, (js "?hl=en").
      split; [reflexivity | left; reflexivity].
  - apply formatWebsiteDisplay_instagram.
    + right. right. right. right. right. left. reflexivity.
    + discriminate.
    + reflexivity.
    + discriminate.
    + discriminate.
    + left. reflexivity.
Defined.

End WebsiteFacts.

(** * A range written with two displays *)

Lemma clock_forall (P : Z -> Z -> Meridiem -> bool) :
  forallb (fun h => forallb (fun m => P h m AM && P h m PM) clockMins)
    clockHours = true ->
  forall h m p, 1 <= h <= 12 -> 0 <= m <= 59 -> P h m p = true.
Proof.
  intros A h m p Hh Hm.
  assert (Ih : In h clockHours).
  { unfold clockHours. rewrite <- (Z2Nat.id h) by lia.
    apply in_map, in_seq. lia. }
  assert (Im : In m clockMins).
  { unfold clockMins. rewrite <- (Z2Nat.id m) by lia.
    apply in_map, in_seq. lia. }
  rewrite forallb_forall in A. specialize (A h Ih).
  rewrite forallb_forall in A. specialize (A m Im).
  apply andb_true_iff in A. destruct p; tauto.
Qed.

Lemma clockToken_plain h m p :
  1 <= h <= 12 -> 0 <= m <= 59 -> plainToken (clockToken h m p) = true.
Proof.
  apply (clock_forall (fun h m p => plainToken (clockToken h m p))).
  vm_compute. reflexivity.
Qed.

Lemma clockToken_parse h m p isEndTime startMinutes :
  1 <= h <= 12 -> 0 <= m <= 59 ->
  parseTime (clockToken h m p) isEndTime startMinutes
  = Some (clockMinutes h m p).
Proof.
  intros Hh Hm. pose proof (roundTrips_in_range p Hh Hm) as R.
  unfold roundTrips in R.
  apply andb_true_iff in R. destruct R as [M R].
  rewrite (@parseTime_meridiem_context _ isEndTime startMinutes M).
  destruct (parseTime (clockToken h m p) false None) as [v|]; [|discriminate].
  apply andb_true_iff in R. destruct R as [V _].
  apply Z.eqb_eq in V. subst v. reflexivity.
Qed.

Lemma splitDashFrom_none cur c s :
  matchSeparator (c :: s) = None ->
  splitDashFrom cur (c :: s) = splitDashFrom (c :: cur) s.
Proof.
  intros H. rewrite splitDashFrom_equation_2.
  destruct (inspect (matchSeparator (c :: s))) as [[rest|] e].
  - congruence.
  - simp splitDashFrom. reflexivity.
Qed.

Lemma splitDashFrom_some cur c s rest :
  matchSeparator (c :: s) = Some rest ->
  splitDashFrom cur (c :: s) = List.rev cur :: splitDashFrom [] rest.
Proof.
  intros H. rewrite splitDashFrom_equation_2.
  destruct (inspect (matchSeparator (c :: s))) as [[rest'|] e].
  - simp splitDashFrom. congruence.
  - congruence.
Qed.

Lemma isPlainCode_no_dash c : isPlainCode c = true -> isDash c = false.
Proof.
  unfold isPlainCode. intros H.
  repeat (apply andb_true_iff in H; destruct H as [H _]).
  apply negb_true_iff in H. exact H.
Qed.

(** No separator starts inside a text of plain code units that is
    followed by a code unit that is neither white space nor a dash. *)
Lemma matchSeparator_plain u z rest :
  forallb isPlainCode u = true -> isPlainCode z = true -> isSpace z = false ->
  matchSeparator (u ++ z :: rest) = None.
Proof.
  intros Hu Hz Sz. unfold matchSeparator.
  induction u as [|c u IH]; simpl.
  - rewrite Sz, (isPlainCode_no_dash _ Hz). reflexivity.
  - simpl in Hu. apply andb_true_iff in Hu. destruct Hu as [Hc Hu].
    destruct (isSpace c); [exact (IH Hu)|].
    rewrite (isPlainCode_no_dash _ Hc). reflexivity.
Qed.

Lemma matchSeparator_no_dash s :
  forallb isPlainCode s = true -> matchSeparator s = None.
Proof.
  intros H. unfold matchSeparator.
  induction s as [|c s IH]; simpl; [reflexivity|].
  simpl in H. apply andb_true_iff in H. destruct H as [Hc H].
  destruct (isSpace c); [exact (IH H)|].
  rewrite (isPlainCode_no_dash _ Hc). reflexivity.
Qed.

Lemma splitDashFrom_plain s : forall cur,
  forallb isPlainCode s = true ->
  splitDashFrom cur s = [List.rev cur ++ s].
Proof.
  induction s as [|c s IH]; intros cur H.
  - rewrite splitDashFrom_equation_1, app_nil_r. reflexivity.
  - rewrite splitDashFrom_none by (apply matchSeparator_no_dash; exact H).
    simpl in H. apply andb_true_iff in H. destruct H as [_ H].
    rewrite (IH _ H). simpl. rewrite <- app_assoc. reflexivity.
Qed.

Lemma matchSeparator_here ws1 d ws2 b :
  forallb isSpace ws1 = true -> isDash d = true ->
  forallb isSpace ws2 = true ->
  match b with c :: _ => isSpace c = false | [] => True end ->
  matchSeparator (ws1 ++ d :: ws2 ++ b) = Some b.
Proof.
  intros H1 Hd H2 Hb. unfold matchSeparator.
  assert (D : isSpace d = false).
  { unfold isDash in Hd. unfold isSpace.
    repeat (apply orb_true_iff in Hd; destruct Hd as [Hd|Hd]);
      apply N.eqb_eq in Hd; subst d; reflexivity. }
  rewrite dropWhile_app, (dropWhile_all _ _ H1).
  simpl. rewrite D, Hd.
  rewrite dropWhile_app, (dropWhile_all _ _ H2).
  destruct b as [|c b]; [reflexivity|]. simpl. rewrite Hb. reflexivity.
Qed.

Lemma splitDashFrom_token u z ws1 d ws2 b : forall cur,
  forallb isPlainCode u = true -> isPlainCode z = true -> isSpace z = false ->
  forallb isSpace ws1 = true -> isDash d = true ->
  forallb isSpace ws2 = true ->
  match b with c :: _ => isSpace c = false | [] => True end ->
  splitDashFrom cur ((u ++ [z]) ++ ws1 ++ d :: ws2 ++ b)
  = (List.rev cur ++ u ++ [z]) :: splitDashFrom [] b.
Proof.
  induction u as [|c u IH]; intros cur Hu Hz Sz H1 Hd H2 Hb.
  - change (([] ++ [z]) ++ ws1 ++ d :: ws2 ++ b)
      with (z :: ws1 ++ d :: ws2 ++ b).
    rewrite splitDashFrom_none
      by (apply (matchSeparator_plain [] z); auto).
    pose proof (matchSeparator_here ws1 d ws2 b H1 Hd H2 Hb) as M.
    destruct (ws1 ++ d :: ws2 ++ b) as [|x t] eqn:E.
    { destruct ws1; discriminate E. }
    rewrite (splitDashFrom_some _ _ _ M). reflexivity.
  - change (((c :: u) ++ [z]) ++ ws1 ++ d :: ws2 ++ b)
      with (c :: (u ++ [z]) ++ ws1 ++ d :: ws2 ++ b).
    rewrite splitDashFrom_none.
    + simpl in Hu. apply andb_true_iff in Hu. destruct Hu as [_ Hu].
      rewrite (IH (c :: cur) Hu Hz Sz H1 Hd H2 Hb).
      simpl. rewrite <- app_assoc. reflexivity.
    + change (c :: (u ++ [z]) ++ ws1 ++ d :: ws2 ++ b)
        with (((c :: u) ++ [z]) ++ ws1 ++ d :: ws2 ++ b).
      rewrite <- app_assoc.
      apply matchSeparator_plain; assumption.
Qed.

(** The parts of a plain token. *)
Lemma plainToken_parts t :
  plainToken t = true ->
  forallb isPlainCode t = true /\
  (exists c t', t = c :: t' /\ isDigit c = true) /\
  (exists u z, t = u ++ [z] /\ isSpace z = false).
Proof.
  unfold plainToken. intros H.
  apply andb_true_iff in H. destruct H as [H L].
  apply andb_true_iff in H. destruct H as [P D].
  split; [exact P|]. split.
  - destruct t as [|c t']; [discriminate D|]. eauto.
  - destruct (List.rev t) as [|z r] eqn:R; [discriminate L|].
    exists (List.rev r), z. split.
    + rewrite <- (rev_involutive t), R. reflexivity.
    + apply negb_true_iff. exact L.
Qed.

Lemma isDigit_not_space c : isDigit c = true -> isSpace c = false.
Proof.
  unfold isDigit, isSpace. intros H.
  apply andb_true_iff in H. destruct H as [H1 H2].
  apply N.leb_le in H1, H2.
  repeat match goal with
         | |- context [(?a <=? ?b)%N] => destruct (N.leb_spec a b)
         | |- context [(?a =? ?b)%N] => destruct (N.eqb_spec a b)
         end; try reflexivity; lia.
Qed.

Lemma splitDash_two_tokens a b ws1 d ws2 :
  plainToken a = true -> plainToken b = true ->
  forallb isSpace ws1 = true -> isDash d = true ->
  forallb isSpace ws2 = true ->
  splitDash (a ++ ws1 ++ d :: ws2 ++ b) = [a; b].
Proof.
  intros Ha Hb H1 Hd H2.
  destruct (plainToken_parts _ Ha) as (Pa & _ & (u & z & -> & Sz)).
  destruct (plainToken_parts _ Hb) as (Pb & (c & b' & -> & Dc) & _).
  rewrite forallb_app in Pa. apply andb_true_iff in Pa.
  destruct Pa as [Pu Pz]. simpl in Pz. rewrite andb_true_r in Pz.
  unfold splitDash.
  rewrite (splitDashFrom_token u z ws1 d ws2 (c :: b') [] Pu Pz Sz H1 Hd H2
             (isDigit_not_space _ Dc)).
  rewrite (splitDashFrom_plain _ [] Pb). reflexivity.
Qed.

Lemma splitOn_single sep s :
  forallb (fun c => negb (code_eqb c sep)) s = true -> splitOn sep s = [s].
Proof.
  induction s as [|c s IH]; intros H; [reflexivity|].
  simpl in H. apply andb_true_iff in H. destruct H as [Hc H].
  apply negb_true_iff in Hc.
  simpl. rewrite (IH H), Hc. reflexivity.
Qed.

Lemma includes_without_first s c pat :
  forallb (fun x => negb (code_eqb x c)) s = true ->
  includes s (c :: pat) = false.
Proof.
  induction s as [|x s IH]; intros H; [reflexivity|].
  simpl in H. apply andb_true_iff in H. destruct H as [Hx H].
  apply negb_true_iff in Hx.
  simpl. rewrite Hx, (IH H). reflexivity.
Qed.

Lemma trim_fixed c t u z :
  isSpace c = false -> isSpace z = false -> c :: t = u ++ [z] ->
  trim (c :: t) = c :: t.
Proof.
  intros Hc Hz E. unfold trim, trimStart, trimEnd.
  simpl dropWhile. rewrite Hc, E, rev_app_distr. simpl.
  rewrite Hz. simpl. rewrite rev_involutive. reflexivity.
Qed.

Lemma isPlainCode_other c :
  isPlainCode c = true ->
  negb (code_eqb c comma) && negb (code_eqb c 79%N) = true.
Proof.
  unfold isPlainCode. intros H.
  apply andb_true_iff in H. destruct H as [H O].
  apply andb_true_iff in H. destruct H as [_ C].
  unfold code_eqb, comma. rewrite C, O. reflexivity.
Qed.

Lemma isSpace_other c :
  isSpace c = true ->
  negb (code_eqb c comma) && negb (code_eqb c 79%N) = true.
Proof.
  unfold code_eqb, comma. intros H.
  destruct (N.eqb_spec c 44); [subst c; discriminate H|].
  destruct (N.eqb_spec c 79); [subst c; discriminate H|]. reflexivity.
Qed.

Lemma isDash_other c :
  isDash c = true ->
  negb (code_eqb c comma) && negb (code_eqb c 79%N) = true.
Proof.
  unfold code_eqb, comma. intros H.
  destruct (N.eqb_spec c 44); [subst c; discriminate H|].
  destruct (N.eqb_spec c 79); [subst c; discriminate H|]. reflexivity.
Qed.

Lemma forallb_weaken (P Q : N -> bool) l :
  (forall c, P c = true -> Q c = true) ->
  forallb P l = true -> forallb Q l = true.
Proof.
  intros W H. rewrite forallb_forall in *. intros c Hc. apply W, H, Hc.
Qed.

(** X21: a range written as two displays with a dash between them is
    read as it is written. For hours from 1 to 12 and minutes from 0 to
    59, the text "H:MM AM|PM", optional white space, an en dash, em dash or
    hyphen, optional white space and "H:MM AM|PM" is parsed by
    [parseTimeRange] as the single range from the minute of the first
    display to the minute of the second, also when the second is earlier
    than the first (a close after midnight). *)
Theorem parseTimeRange_two_displays h1 m1 p1 h2 m2 p2 ws1 d ws2 :
  1 <= h1 <= 12 -> 0 <= m1 <= 59 -> 1 <= h2 <= 12 -> 0 <= m2 <= 59 ->
  forallb isSpace ws1 = true -> isDash d = true ->
  forallb isSpace ws2 = true ->
  parseTimeRange
    (Some (clockToken h1 m1 p1 ++ ws1 ++ d :: ws2 ++ clockToken h2 m2 p2))
  = Some [mkRange (clockMinutes h1 m1 p1) (clockMinutes h2 m2 p2) false].
Proof.
  intros Hh1 Hm1 Hh2 Hm2 H1 Hd H2.
  pose proof (clockToken_plain p1 Hh1 Hm1) as Pa.
  pose proof (clockToken_plain p2 Hh2 Hm2) as Pb.
  pose proof (splitDash_two_tokens _ _ ws1 d ws2 Pa Pb H1 Hd H2) as Sp.
  pose proof (clockToken_parse p1 false None Hh1 Hm1) as Ta.
  pose proof (clockToken_parse p2 true (Some (clockMinutes h1 m1 p1)) Hh2 Hm2)
    as Tb.
  revert Sp Ta Tb.
  generalize (clockToken h1 m1 p1) (clockToken h2 m2 p2) Pa Pb.
  clear Pa Pb. intros a b Pa Pb Sp Ta Tb.
  destruct (plainToken_parts _ Pa) as (Ca & (c & a' & Ea & Dc) & _).
  destruct (plainToken_parts _ Pb) as (Cb & _ & (u & z & Eb & Sz)).
  set (text := a ++ ws1 ++ d :: ws2 ++ b) in *.
  assert (O : forallb (fun x => negb (code_eqb x comma)
                                && negb (code_eqb x 79%N)) text = true).
  { unfold text. rewrite !forallb_app. cbn [forallb]. rewrite !forallb_app.
    rewrite (forallb_weaken _ _ _ isPlainCode_other Ca).
    rewrite (forallb_weaken _ _ _ isSpace_other H1).
    rewrite (isDash_other _ Hd).
    rewrite (forallb_weaken _ _ _ isSpace_other H2).
    rewrite (forallb_weaken _ _ _ isPlainCode_other Cb). reflexivity. }
  assert (Hc : exists t, text = c :: t /\ text = (a ++ ws1 ++ d :: ws2 ++ u) ++ [z]).
  { unfold text. rewrite Ea, Eb. exists (a' ++ ws1 ++ d :: ws2 ++ u ++ [z]).
    split; [reflexivity|].
    rewrite <- !app_assoc. simpl. rewrite <- !app_assoc. reflexivity. }
  destruct Hc as (t & Et & El).
  assert (P : parsePeriod text
              = Some (mkRange (clockMinutes h1 m1 p1) (clockMinutes h2 m2 p2)
                        false)).
  { unfold parsePeriod. rewrite Sp, Ta, Tb. reflexivity. }
  assert (T : periodsOf text = [text]).
  { unfold periodsOf. rewrite splitOn_single.
    - simpl. f_equal. rewrite Et.
      apply (@trim_fixed c t (a ++ ws1 ++ d :: ws2 ++ u) z);
        [exact (isDigit_not_space _ Dc) | exact Sz |].
      rewrite <- Et. exact El.
    - apply (forallb_weaken _ _ _ (fun x H => proj1 (andb_prop _ _ H)) O). }
  unfold parseTimeRange.
  assert (E : isEmpty text || str_eqb text (js "Closed") = false).
  { rewrite Et. cbn [isEmpty orb].
    change (js "Closed") with (67%N :: js "losed"). cbn [str_eqb].
    unfold code_eqb. destruct (N.eqb_spec c 67); [|reflexivity].
    subst c. discriminate Dc. }
  rewrite E.
  change (js "Open 24 hours") with (79%N :: js "pen 24 hours").
  rewrite (@includes_without_first text 79%N (js "pen 24 hours")
             (forallb_weaken _ _ _ (fun x H => proj2 (andb_prop _ _ H)) O)).
  cbv zeta. rewrite T. simpl fold_left. unfold pushPeriod. rewrite P.
  reflexivity.
Qed.

Lemma parseTimeRange_two_displays_witness :
  parseTimeRange
    (Some (clockToken 10 0 PM ++ [8201%N] ++ 8211%N :: [8201%N]
             ++ clockToken 1 30 AM))
  = Some [mkRange 1320 90 false].
Proof.
  apply (@parseTimeRange_two_displays 10 0 PM 1 30 AM [8201%N] 8211%N
           [8201%N]); try lia; reflexivity.
Defined.
